(** * Styled QR renderer and scan history: a shallow embedding

    The development follows [src/components/Generator.tsx] (the QR
    compositor [generateQR] with its helpers, the content-template effect
    and the logo handlers) and the [App] component ([handleScan]).

    Numbers.  JavaScript numbers are modelled by exact rationals ([Q]);
    integer-valued quantities (module indices, [Math.ceil]/[Math.floor]
    results) by [Z] or [nat].  The only division of the renderer whose
    divisor can vanish is [(size * logoScale) / cellSize]; there [0 / 0]
    is JavaScript's NaN, which the model represents by [None]. *)

From Stdlib Require Import ZArith QArith Qround Qminmax String Ascii List Bool
  Lia Lqa.
Import ListNotations.

Local Open Scope Z_scope.

(* ================================================================== *)
(** ** Enumerations of [Generator.tsx] *)
(* ================================================================== *)

(** [type DotStyle = 'square' | 'rounded' | 'dots' | 'extra-rounded' |
    'classy' | 'classy-inverted' | 'diamond' | 'cross'] *)
Inductive DotStyle : Type :=
| DotSquare | DotRounded | DotDots | DotExtraRounded
| DotClassy | DotClassyInverted | DotDiamond | DotCross.

(** [type EyeStyle = 'square' | 'circle' | 'rounded' | 'leaf'] *)
Inductive EyeStyle : Type := EyeSquare | EyeCircle | EyeRounded | EyeLeaf.

(** [type ColorMode = 'solid' | 'gradient'] *)
Inductive ColorMode : Type := Solid | Gradient.

(** [type GradientType = 'vertical' | 'horizontal' | 'diagonal' | 'radial'] *)
Inductive GradientType : Type := Vertical | Horizontal | Diagonal | Radial.

(** [type QRContentType = 'text' | 'url' | 'wifi' | 'email' | 'vcard'] *)
Inductive QRContentType : Type := CtText | CtUrl | CtWifi | CtEmail | CtVcard.

(** [type LogoShape = 'none' | 'circle' | 'rounded' | 'square'] *)
Inductive LogoShape : Type := LogoNone | LogoCircle | LogoRounded | LogoSquare.

(** The error-correction level, ['L' | 'M' | 'Q' | 'H']. *)
Inductive ErrorLevel : Type := LevelL | LevelM | LevelQ | LevelH.

(** ['top' | 'bottom'] *)
Inductive LabelPosition : Type := Top | Bottom.

(** The WiFi encryption field, ['WPA' | 'WEP' | 'nopass']. *)
Inductive Encryption : Type := WPA | WEP | Nopass.

(** Truthiness of a JavaScript string: only the empty string is falsy. *)
Definition truthy (s : string) : bool :=
  match s with EmptyString => false | String _ _ => true end.

(** Truthiness of a [string | null] value. *)
Definition truthy_opt (o : option string) : bool :=
  match o with None => false | Some s => truthy s end.

(* ================================================================== *)
(** ** Geometry of [generateQR] *)
(* ================================================================== *)

(** The module matrix of the [qrcode] package: [modules.size] and
    [modules.get(row, col)], which reads [data[row * size + col]]. *)
Module BitMatrix.
Record t : Type := make { size : nat; data : list bool }.

Definition get (m : t) (row col : nat) : bool :=
  nth (row * size m + col) (data m) false.
End BitMatrix.

(** [const margin = 2;] *)
Definition margin : Z := 2.

(** [const cellSize = size / (moduleCount + margin * 2);]
    The divisor is at least 4, so the quotient is always finite. *)
Definition cellSize (size : Q) (moduleCount : nat) : Q :=
  (size / inject_Z (Z.of_nat moduleCount + margin * 2))%Q.

(** [const scaleFactor = qrSize / 1000;] *)
Definition scaleFactor (qrSize : Q) : Q := (qrSize / 1000)%Q.

(** [const renderLabelSize = labelSize * scaleFactor;] *)
Definition renderLabelSize (labelSize qrSize : Q) : Q :=
  (labelSize * scaleFactor qrSize)%Q.

(** [let extraHeight = 0; if (labelText) { extraHeight = renderLabelSize * 2.5; }] *)
Definition extraHeight (labelText : string) (labelSize qrSize : Q) : Q :=
  if truthy labelText then (renderLabelSize labelSize qrSize * 2.5)%Q else 0%Q.

(** [const totalWidth = size;] *)
Definition totalWidth (size : Q) : Q := size.

(** [const totalHeight = size + extraHeight;] *)
Definition totalHeight (labelText : string) (labelSize size : Q) : Q :=
  (size + extraHeight labelText labelSize size)%Q.

(** [let qrOffsetY = 0;
     if (labelText && labelPosition === 'top') { qrOffsetY = extraHeight; }] *)
Definition qrOffsetY (labelText : string) (labelPosition : LabelPosition)
    (labelSize size : Q) : Q :=
  if truthy labelText
  then match labelPosition with
       | Top => extraHeight labelText labelSize size
       | Bottom => 0%Q
       end
  else 0%Q.

(** [const offset = margin * cellSize;] *)
Definition offset (size : Q) (moduleCount : nat) : Q :=
  (inject_Z margin * cellSize size moduleCount)%Q.

(** [const logoSize = 25;] and [const logoScale = logoSize / 100;] *)
Definition logoSize : Q := 25%Q.
Definition logoScale : Q := (logoSize / 100)%Q.

(** The value of [(logoStart, logoEnd)] after the "Logo bounds logic".
    [Some (s, e)] stands for two integers, [None] for the pair of NaNs
    that [0 / 0] produces when [cellSize] is zero.

    [[
      let logoStart = -1; let logoEnd = -1;
      if (logo) {
        const center = moduleCount / 2;
        const logoModuleSize = Math.ceil((size * logoScale) / cellSize);
        const adjustedSize = logoModuleSize % 2 === 0 ? logoModuleSize + 1 : logoModuleSize;
        logoStart = Math.floor(center - adjustedSize / 2);
        logoEnd = Math.ceil(center + adjustedSize / 2);
      }
    ]] *)
Definition logoModuleSize (size : Q) (moduleCount : nat) : Z :=
  Qceiling ((size * logoScale) / cellSize size moduleCount).

Definition adjustedSize (size : Q) (moduleCount : nat) : Z :=
  let lms := logoModuleSize size moduleCount in
  if Z.rem lms 2 =? 0 then lms + 1 else lms.

Definition logoBounds (logo : option string) (size : Q) (moduleCount : nat)
  : option (Z * Z) :=
  if truthy_opt logo then
    if Qeq_bool (cellSize size moduleCount) 0 then None
    else
      let center := (inject_Z (Z.of_nat moduleCount) / 2)%Q in
      let adj := inject_Z (adjustedSize size moduleCount) in
      Some (Qfloor (center - adj / 2), Qceiling (center + adj / 2))
  else Some (-1, -1).

(* ================================================================== *)
(** ** The 2D canvas context *)
(* ================================================================== *)

(** The two angles the renderer passes to [ctx.arc]: [0] and
    [Math.PI * 2]. *)
Inductive Angle : Type := Rad0 | Rad2Pi.

(** A [CanvasGradient]: the geometry given to [createLinearGradient] or
    [createRadialGradient] and the stops added by [addColorStop]. *)
Inductive GradientGeometry : Type :=
| LinearGradient (x0 y0 x1 y1 : Q)
| RadialGradient (x0 y0 r0 x1 y1 r1 : Q).

Record CanvasGradient : Type :=
  { geometry : GradientGeometry; colorStops : list (Q * string) }.

(** What [getFillStyle] returns: [string | CanvasGradient]. *)
Inductive FillStyle : Type :=
| FillColor (c : string)
| FillGradient (g : CanvasGradient).

(** The calls and assignments made on the [CanvasRenderingContext2D], in
    the order they are issued. *)
Module Ctx.
Inductive op : Type :=
| beginPath
| closePath
| moveTo (x y : Q)
| lineTo (x y : Q)
| quadraticCurveTo (cpx cpy x y : Q)
| arc (x y radius : Q) (startAngle endAngle : Angle)
| rect (x y w h : Q)
| fill
| fillEvenOdd
| fillRect (x y w h : Q)
| fillStyle (s : FillStyle)
| save
| restore
| clip
| drawImage (src : string) (dx dy dw dh : Q)
| font (sizePx : Q) (family : string)
| textAlign (a : string)
| textBaseline (b : string)
| fillText (text : string) (x y : Q).
End Ctx.

Local Open Scope Q_scope.

(** [getFillStyle(ctx, width, height, mode, type, c1, c2)].  Creating a
    gradient does not change the context, so the function is pure. *)
Definition getFillStyle (width height : Q) (mode : ColorMode)
    (type : GradientType) (c1 c2 : string) : FillStyle :=
  match mode with
  | Solid => FillColor c1
  | Gradient =>
      let grd :=
        match type with
        | Vertical => LinearGradient 0 0 0 height
        | Horizontal => LinearGradient 0 0 width 0
        | Diagonal => LinearGradient 0 0 width height
        | Radial =>
            RadialGradient (width / 2) (height / 2) (width / 10)
                           (width / 2) (height / 2) (Qmax width height * 0.8)
        end in
      FillGradient {| geometry := grd; colorStops := [(0, c1); (1, c2)] |}
  end.

(** [roundRectPath(ctx, x, y, w, h, r)] *)
Definition roundRectPath (x y w h r : Q) : list Ctx.op :=
  [ Ctx.beginPath;
    Ctx.moveTo (x + r) y;
    Ctx.lineTo (x + w - r) y;
    Ctx.quadraticCurveTo (x + w) y (x + w) (y + r);
    Ctx.lineTo (x + w) (y + h - r);
    Ctx.quadraticCurveTo (x + w) (y + h) (x + w - r) (y + h);
    Ctx.lineTo (x + r) (y + h);
    Ctx.quadraticCurveTo x (y + h) x (y + h - r);
    Ctx.lineTo x (y + r);
    Ctx.quadraticCurveTo x y (x + r) y;
    Ctx.closePath ].

(** [roundRectAdvanced(ctx, x, y, w, h, tl, tr, br, bl)] *)
Definition roundRectAdvanced (x y w h tl tr br bl : Q) : list Ctx.op :=
  [ Ctx.moveTo (x + tl) y;
    Ctx.lineTo (x + w - tr) y;
    Ctx.quadraticCurveTo (x + w) y (x + w) (y + tr);
    Ctx.lineTo (x + w) (y + h - br);
    Ctx.quadraticCurveTo (x + w) (y + h) (x + w - br) (y + h);
    Ctx.lineTo (x + bl) (y + h);
    Ctx.quadraticCurveTo x (y + h) x (y + h - bl);
    Ctx.lineTo x (y + tl);
    Ctx.quadraticCurveTo x y (x + tl) y ].

(** [drawModule(ctx, x, y, size, style)] *)
Definition drawModule (x y size : Q) (style : DotStyle) : list Ctx.op :=
  let cx := x + size / 2 in
  let cy := y + size / 2 in
  [ Ctx.beginPath ]
  ++ match style with
     | DotDots => [ Ctx.arc cx cy (size / 2) Rad0 Rad2Pi ]
     | DotRounded => roundRectPath x y size size (size * 0.25)
     | DotExtraRounded => roundRectPath x y size size (size * 0.45)
     | DotClassy =>
         roundRectAdvanced x y size size (size * 0.5) 0 (size * 0.5) 0
     | DotClassyInverted =>
         roundRectAdvanced x y size size 0 (size * 0.5) 0 (size * 0.5)
     | DotDiamond =>
         [ Ctx.moveTo cx y;
           Ctx.lineTo (x + size) cy;
           Ctx.lineTo cx (y + size);
           Ctx.lineTo x cy ]
     | DotCross =>
         let w := size * 0.35 in
         let inset := (size - w) / 2 in
         [ Ctx.rect (x + inset) y w size;
           Ctx.rect x (y + inset) size w ]
     | DotSquare => [ Ctx.rect x y (size + 0.5) (size + 0.5) ]
     end
  ++ [ Ctx.fill; Ctx.closePath ].

(** [drawFinderPattern(ctx, x, y, cellSize, style)]: the outer ring with
    its hole, then the inner 3x3 block, filled with the even-odd rule. *)
Definition finderOuterRing (x y cellSize : Q) (style : EyeStyle)
  : list Ctx.op :=
  let os := cellSize * 7 in
  match style with
  | EyeCircle =>
      [ Ctx.moveTo (x + os) (y + os / 2);
        Ctx.arc (x + os / 2) (y + os / 2) (os / 2) Rad0 Rad2Pi;
        Ctx.moveTo (x + os - cellSize) (y + os / 2);
        Ctx.arc (x + os / 2) (y + os / 2) ((os - 2 * cellSize) / 2) Rad0 Rad2Pi ]
  | EyeRounded =>
      let hx := x + cellSize in
      let hy := y + cellSize in
      let hw := os - 2 * cellSize in
      let hr := cellSize * 1.5 in
      roundRectPath x y os os (cellSize * 2)
      ++ [ Ctx.moveTo (x + cellSize * 2) y;
           Ctx.lineTo (x + os - cellSize * 2) y;
           Ctx.quadraticCurveTo (x + os) y (x + os) (y + cellSize * 2);
           Ctx.lineTo (x + os) (y + os - cellSize * 2);
           Ctx.quadraticCurveTo (x + os) (y + os) (x + os - cellSize * 2) (y + os);
           Ctx.lineTo (x + cellSize * 2) (y + os);
           Ctx.quadraticCurveTo x (y + os) x (y + os - cellSize * 2);
           Ctx.lineTo x (y + cellSize * 2);
           Ctx.quadraticCurveTo x y (x + cellSize * 2) y;
           Ctx.moveTo (hx + hr) hy;
           Ctx.lineTo (hx + hw - hr) hy;
           Ctx.quadraticCurveTo (hx + hw) hy (hx + hw) (hy + hr);
           Ctx.lineTo (hx + hw) (hy + hw - hr);
           Ctx.quadraticCurveTo (hx + hw) (hy + hw) (hx + hw - hr) (hy + hw);
           Ctx.lineTo (hx + hr) (hy + hw);
           Ctx.quadraticCurveTo hx (hy + hw) hx (hy + hw - hr);
           Ctx.lineTo hx (hy + hr);
           Ctx.quadraticCurveTo hx hy (hx + hr) hy ]
  | EyeLeaf =>
      let lr := cellSize * 2.5 in
      let lix := x + cellSize in
      let liy := y + cellSize in
      let liw := os - 2 * cellSize in
      let lir := cellSize * 1.5 in
      [ Ctx.moveTo (x + lr) y;
        Ctx.lineTo (x + os) y;
        Ctx.lineTo (x + os) (y + os - lr);
        Ctx.quadraticCurveTo (x + os) (y + os) (x + os - lr) (y + os);
        Ctx.lineTo x (y + os);
        Ctx.lineTo x (y + lr);
        Ctx.quadraticCurveTo x y (x + lr) y;
        Ctx.moveTo (lix + lir) liy;
        Ctx.lineTo (lix + liw) liy;
        Ctx.lineTo (lix + liw) (liy + liw - lir);
        Ctx.quadraticCurveTo (lix + liw) (liy + liw) (lix + liw - lir) (liy + liw);
        Ctx.lineTo lix (liy + liw);
        Ctx.lineTo lix (liy + lir);
        Ctx.quadraticCurveTo lix liy (lix + lir) liy ]
  | EyeSquare =>
      [ Ctx.rect x y os os;
        Ctx.rect (x + cellSize) (y + cellSize)
                 (os - 2 * cellSize) (os - 2 * cellSize) ]
  end.

(** The inner size [is] of the source is written [is']. *)
Definition finderInnerBlock (x y cellSize : Q) (style : EyeStyle)
  : list Ctx.op :=
  let is' := cellSize * 3 in
  let ix := x + 2 * cellSize in
  let iy := y + 2 * cellSize in
  match style with
  | EyeCircle =>
      [ Ctx.moveTo (ix + is') (iy + is' / 2);
        Ctx.arc (ix + is' / 2) (iy + is' / 2) (is' / 2) Rad0 Rad2Pi ]
  | EyeRounded => roundRectPath ix iy is' is' (cellSize * 1)
  | EyeLeaf =>
      let ir := cellSize * 1 in
      [ Ctx.moveTo (ix + ir) iy;
        Ctx.lineTo (ix + is') iy;
        Ctx.lineTo (ix + is') (iy + is' - ir);
        Ctx.quadraticCurveTo (ix + is') (iy + is') (ix + is' - ir) (iy + is');
        Ctx.lineTo ix (iy + is');
        Ctx.lineTo ix (iy + ir);
        Ctx.quadraticCurveTo ix iy (ix + ir) iy ]
  | EyeSquare => [ Ctx.rect ix iy is' is' ]
  end.

Definition drawFinderPattern (x y cellSize : Q) (style : EyeStyle)
  : list Ctx.op :=
  [ Ctx.beginPath ]
  ++ finderOuterRing x y cellSize style
  ++ finderInnerBlock x y cellSize style
  ++ [ Ctx.fillEvenOdd ].

Local Close Scope Q_scope.

(* ================================================================== *)
(** ** The data-module loop *)
(* ================================================================== *)

(** The component state that [generateQR] closes over (its dependency
    list), with the [useState] names. *)
Record Config : Type :=
  { text : string;
    fgColorMode : ColorMode; fgColor1 : string; fgColor2 : string;
    fgGradientType : GradientType;
    bgColorMode : ColorMode; bgColor1 : string; bgColor2 : string;
    bgGradientType : GradientType;
    errorLevel : ErrorLevel;
    dotStyle : DotStyle;
    eyeStyle : EyeStyle;
    logo : option string;
    logoShape : LogoShape;
    qrSize : Q;
    labelText : string;
    labelPosition : LabelPosition;
    labelColor : string;
    labelSize : Q;
    labelFont : string }.

(** One call [drawModule(ctx, x, y, cellSize, dotStyle)] issued by the
    loop, together with the module index [(r, c)] it is issued for. *)
Record ModuleDraw : Type :=
  { md_row : nat; md_col : nat; md_x : Q; md_y : Q; md_size : Q;
    md_style : DotStyle }.

(** [for (let i = 0; i < n; i++) { body }]: the calls each iteration
    issues, in iteration order. *)
Definition for_upto {A : Type} (n : nat) (body : nat -> list A) : list A :=
  flat_map body (seq 0 n).

(** [logo && r >= logoStart && r < logoEnd && c >= logoStart && c < logoEnd];
    every comparison with NaN is false. *)
Definition underLogo (logo : option string) (bounds : option (Z * Z))
    (r c : nat) : bool :=
  truthy_opt logo &&
  match bounds with
  | Some (logoStart, logoEnd) =>
      (Z.of_nat r >=? logoStart) && (Z.of_nat r <? logoEnd)
      && (Z.of_nat c >=? logoStart) && (Z.of_nat c <? logoEnd)
  | None => false
  end.

(** [[
      const isFinderPattern =
          (r < 7 && c < 7) ||
          (r < 7 && c >= moduleCount - 7) ||
          (r >= moduleCount - 7 && c < 7);
    ]] *)
Definition isFinderPattern (moduleCount r c : nat) : bool :=
  ((Z.of_nat r <? 7) && (Z.of_nat c <? 7))
  || ((Z.of_nat r <? 7) && (Z.of_nat c >=? Z.of_nat moduleCount - 7))
  || ((Z.of_nat r >=? Z.of_nat moduleCount - 7) && (Z.of_nat c <? 7)).

(** The body of the inner loop; [[]] is a [continue] or an "off" module. *)
Definition dataModuleBody (cfg : Config) (modules : BitMatrix.t)
    (r c : nat) : list ModuleDraw :=
  let size := qrSize cfg in
  let moduleCount := BitMatrix.size modules in
  let cellSize := cellSize size moduleCount in
  let qrOffsetY :=
    qrOffsetY (labelText cfg) (labelPosition cfg) (labelSize cfg) size in
  let offset := offset size moduleCount in
  if underLogo (logo cfg) (logoBounds (logo cfg) size moduleCount) r c
  then []
  else if isFinderPattern moduleCount r c then []
  else if BitMatrix.get modules r c then
    [ {| md_row := r; md_col := c;
         md_x := (offset + inject_Z (Z.of_nat c) * cellSize)%Q;
         md_y := (qrOffsetY + offset + inject_Z (Z.of_nat r) * cellSize)%Q;
         md_size := cellSize;
         md_style := dotStyle cfg |} ]
  else [].

(** [[
      for (let r = 0; r < moduleCount; r++) {
        for (let c = 0; c < moduleCount; c++) { ... }
      }
    ]] *)
Definition dataModuleLoop (cfg : Config) (modules : BitMatrix.t)
  : list ModuleDraw :=
  let moduleCount := BitMatrix.size modules in
  for_upto moduleCount (fun r =>
    for_upto moduleCount (fun c => dataModuleBody cfg modules r c)).

(** The context operations of one such call. *)
Definition drawModuleCall (d : ModuleDraw) : list Ctx.op :=
  drawModule (md_x d) (md_y d) (md_size d) (md_style d).

(* ================================================================== *)
(** ** Effects: component state, canvas, exceptions *)
(* ================================================================== *)

(** The [<canvas>] element behind [canvasRef]: its size, whether
    [getContext('2d')] yields a context, and the operations issued on that
    context since the size was last assigned (assigning [width] or
    [height] clears the canvas). *)
Record Canvas : Type :=
  { width : Q; height : Q; context2d : bool; ops : list Ctx.op }.

(** The exceptions that can reach the [catch] of [generateQR]. *)
Inductive Exn : Type :=
| QRCodeError (message : string)
| InvalidStateError.

(** What [generateQR] reads and writes besides its closure: the
    [generatedBase64] state, [canvasRef.current] and the console. *)
Record World : Type :=
  { generatedBase64 : string;
    canvasRef : option Canvas;
    console : list (string * Exn) }.

(** How a statement completes: normally, by [return], or by [throw]. *)
Inductive Completion (A : Type) : Type :=
| Normal (a : A)
| Return
| Throw (e : Exn).
Arguments Normal {A} a.
Arguments Return {A}.
Arguments Throw {A} e.

(** State and completion monad: effects persist when a statement throws. *)
Definition Eff (A : Type) : Type := World -> Completion A * World.

Definition ret {A : Type} (a : A) : Eff A := fun w => (Normal a, w).

Definition bind {A B : Type} (m : Eff A) (k : A -> Eff B) : Eff B :=
  fun w =>
    match m w with
    | (Normal a, w') => k a w'
    | (Return, w') => (Return, w')
    | (Throw e, w') => (Throw e, w')
    end.

Declare Scope eff_scope.
Delimit Scope eff_scope with eff.
Notation "x <- m ;; k" := (bind m (fun x => k))
  (at level 61, m at next level, right associativity) : eff_scope.
Notation "m ;; k" := (bind m (fun _ => k))
  (at level 61, right associativity) : eff_scope.

(** [return;] *)
Definition return_ {A : Type} : Eff A := fun w => (Return, w).

(** [throw e] *)
Definition throw {A : Type} (e : Exn) : Eff A := fun w => (Throw e, w).

(** [try { body } catch (err) { handler }] *)
Definition tryCatch {A : Type} (body : Eff A) (handler : Exn -> Eff A)
  : Eff A :=
  fun w =>
    match body w with
    | (Throw e, w') => handler e w'
    | r => r
    end.

(** [setGeneratedBase64(v)] *)
Definition setGeneratedBase64 (v : string) : Eff unit :=
  fun w => (Normal tt,
            {| generatedBase64 := v; canvasRef := canvasRef w;
               console := console w |}).

(** [console.error(message, err)] *)
Definition console_error (message : string) (err : Exn) : Eff unit :=
  fun w => (Normal tt,
            {| generatedBase64 := generatedBase64 w; canvasRef := canvasRef w;
               console := console w ++ [(message, err)] |}).

(** [canvasRef.current] *)
Definition canvasRef_current : Eff (option Canvas) :=
  fun w => (Normal (canvasRef w), w).

Definition updateCanvas (f : Canvas -> Canvas) : Eff unit :=
  fun w => (Normal tt,
            {| generatedBase64 := generatedBase64 w;
               canvasRef := option_map f (canvasRef w);
               console := console w |}).

(** [canvas.width = w; canvas.height = h;] *)
Definition setCanvasSize (w h : Q) : Eff unit :=
  updateCanvas (fun cv =>
    {| width := w; height := h; context2d := context2d cv; ops := [] |}).

(** The context calls [l], issued in order. *)
Definition emit (l : list Ctx.op) : Eff unit :=
  updateCanvas (fun cv =>
    {| width := width cv; height := height cv; context2d := context2d cv;
       ops := ops cv ++ l |}).

(** [if (cond) { body }] *)
Definition when (cond : bool) (body : Eff unit) : Eff unit :=
  if cond then body else ret tt.

(* ================================================================== *)
(** ** [generateQR] *)
(* ================================================================== *)

Section Renderer.

(** [QRCode.create(text, { errorCorrectionLevel })] of the [qrcode]
    package: the module matrix, or the error it throws. *)
Variable QRCode_create : string -> ErrorLevel -> Exn + BitMatrix.t.

(** [canvas.toDataURL('image/png')]. *)
Variable toDataURL : Canvas -> string.

(** Whether an [Image] given this [src] loads ([onload]) or fails to
    ([onerror]). *)
Variable imageLoads : string -> bool.

(** Whether [ctx.drawImage] raises [InvalidStateError] when it is handed
    an image whose load failed, or ignores the call.  (Browsers raise: the
    HTML Standard's "check the usability of the image argument" throws for
    an image in the broken state.) *)
Variable drawImageRejectsBroken : bool.

Local Open Scope eff_scope.
Local Open Scope Q_scope.

(** [const qrData = QRCode.create(...)], inside the [try]. *)
Definition createQR (text : string) (level : ErrorLevel) : Eff BitMatrix.t :=
  match QRCode_create text level with
  | inl e => throw e
  | inr modules => ret modules
  end.

(** [[
      await new Promise((resolve) => {
        if (logoImg.complete) { resolve(true); }
        else { logoImg.onload = () => resolve(true);
               logoImg.onerror = () => resolve(false); }
      });
    ]]
    A one-shot suspension; the resolved value tells a load from a failure
    (unless the image was complete already), and neither branch rejects. *)
Definition awaitImage (src : string) : Eff bool :=
  ret (imageLoads src).

(** [ctx.drawImage(logoImg, dx, dy, dw, dh)] for an image that has loaded
    ([loaded = true]) or is broken. *)
Definition ctx_drawImage (loaded : bool) (src : string) (dx dy dw dh : Q)
  : Eff unit :=
  if loaded then emit [ Ctx.drawImage src dx dy dw dh ]
  else if drawImageRejectsBroken then throw InvalidStateError
  else ret tt.

(** [[
      if (logoShape !== 'none') {
        ctx.beginPath();
        if (logoShape === 'circle') { ctx.arc(...) }
        else if (logoShape === 'rounded') { roundRectPath(...) }
        else { ctx.rect(...) }
        ctx.clip();
      }
    ]] *)
Definition logoClip (shape : LogoShape) (logoX logoY logoSizePx : Q)
  : list Ctx.op :=
  match shape with
  | LogoNone => []
  | LogoCircle =>
      [ Ctx.beginPath;
        Ctx.arc (logoX + logoSizePx / 2) (logoY + logoSizePx / 2)
                (logoSizePx / 2) Rad0 Rad2Pi;
        Ctx.clip ]
  | LogoRounded =>
      [ Ctx.beginPath ]
      ++ roundRectPath logoX logoY logoSizePx logoSizePx (logoSizePx * 0.2)
      ++ [ Ctx.clip ]
  | LogoSquare =>
      [ Ctx.beginPath; Ctx.rect logoX logoY logoSizePx logoSizePx; Ctx.clip ]
  end.

(** The "Draw Logo" block, entered when [logo] is truthy with [src]. *)
Definition drawLogo (cfg : Config) (src : string) : Eff unit :=
  let size := qrSize cfg in
  let qrOffsetY :=
    qrOffsetY (labelText cfg) (labelPosition cfg) (labelSize cfg) size in
  _ <- awaitImage src ;;
  let logoSizePx := size * logoScale in
  let logoX := (size - logoSizePx) / 2 in
  let logoY := qrOffsetY + (size - logoSizePx) / 2 in
  emit [ Ctx.save ] ;;
  emit (logoClip (logoShape cfg) logoX logoY logoSizePx) ;;
  ctx_drawImage (imageLoads src) src logoX logoY logoSizePx logoSizePx ;;
  emit [ Ctx.restore ].

(** The "Draw Label Text" block, entered when [labelText] is truthy. *)
Definition drawLabel (cfg : Config) : list Ctx.op :=
  let size := qrSize cfg in
  let extraHeight := extraHeight (labelText cfg) (labelSize cfg) size in
  let textX := totalWidth size / 2 in
  let textY :=
    match labelPosition cfg with
    | Top => extraHeight / 2
    | Bottom => size + extraHeight / 2
    end in
  [ Ctx.fillStyle (FillColor (labelColor cfg));
    Ctx.font (renderLabelSize (labelSize cfg) size) (labelFont cfg);
    Ctx.textAlign "center";
    Ctx.textBaseline "middle";
    Ctx.fillText (labelText cfg) textX textY ].

(** The three [drawFinderPattern] calls. *)
Definition drawFinderPatterns (cfg : Config) (moduleCount : nat)
  : list Ctx.op :=
  let size := qrSize cfg in
  let cellSize := cellSize size moduleCount in
  let offset := offset size moduleCount in
  let qrOffsetY :=
    qrOffsetY (labelText cfg) (labelPosition cfg) (labelSize cfg) size in
  let far := inject_Z (Z.of_nat moduleCount - 7) * cellSize in
  drawFinderPattern offset (qrOffsetY + offset) cellSize (eyeStyle cfg)
  ++ drawFinderPattern (offset + far) (qrOffsetY + offset) cellSize
                       (eyeStyle cfg)
  ++ drawFinderPattern offset (qrOffsetY + offset + far) cellSize
                       (eyeStyle cfg).

(** The body of the [try] block. *)
Definition compose (cfg : Config) : Eff unit :=
  modules <- createQR (text cfg) (errorLevel cfg) ;;
  canvas <- canvasRef_current ;;
  match canvas with
  | None => return_
  | Some canvas =>
      let size := qrSize cfg in
      let moduleCount := BitMatrix.size modules in
      let totalWidth := totalWidth size in
      let totalHeight := totalHeight (labelText cfg) (labelSize cfg) size in
      setCanvasSize totalWidth totalHeight ;;
      if negb (context2d canvas) then return_
      else
        emit [ Ctx.fillStyle
                 (getFillStyle totalWidth totalHeight (bgColorMode cfg)
                    (bgGradientType cfg) (bgColor1 cfg) (bgColor2 cfg));
               Ctx.fillRect 0 0 totalWidth totalHeight ] ;;
        emit [ Ctx.fillStyle
                 (getFillStyle size size (fgColorMode cfg)
                    (fgGradientType cfg) (fgColor1 cfg) (fgColor2 cfg)) ] ;;
        emit (flat_map drawModuleCall (dataModuleLoop cfg modules)) ;;
        emit (drawFinderPatterns cfg moduleCount) ;;
        match logo cfg with
        | Some src => when (truthy src) (drawLogo cfg src)
        | None => ret tt
        end ;;
        when (truthy (labelText cfg)) (emit (drawLabel cfg)) ;;
        cv <- canvasRef_current ;;
        setGeneratedBase64
          (match cv with Some cv => toDataURL cv | None => "" end)
  end.

(** [[
      const generateQR = useCallback(async () => {
        if (!text) { setGeneratedBase64(''); return; }
        try { ... } catch (err) { console.error("QR Generation failed", err); }
      }, [...]);
    ]] *)
Definition generateQR (cfg : Config) : Eff unit :=
  if negb (truthy (text cfg)) then
    setGeneratedBase64 "" ;; return_
  else
    tryCatch (compose cfg)
             (fun err => console_error "QR Generation failed" err).

End Renderer.

(** The context operations [compose] issues before the "Draw Logo"
    block: background, foreground style, data modules, finder patterns. *)
Definition paintedBeforeLogo (cfg : Config) (modules : BitMatrix.t)
  : list Ctx.op :=
  let size := qrSize cfg in
  let totalWidth := totalWidth size in
  let totalHeight := totalHeight (labelText cfg) (labelSize cfg) size in
  [ Ctx.fillStyle
      (getFillStyle totalWidth totalHeight (bgColorMode cfg)
         (bgGradientType cfg) (bgColor1 cfg) (bgColor2 cfg));
    Ctx.fillRect 0 0 totalWidth totalHeight;
    Ctx.fillStyle
      (getFillStyle size size (fgColorMode cfg)
         (fgGradientType cfg) (fgColor1 cfg) (fgColor2 cfg)) ]
  ++ flat_map drawModuleCall (dataModuleLoop cfg modules)
  ++ drawFinderPatterns cfg (BitMatrix.size modules).

(** The operations of the "Draw Logo" block up to the [drawImage] call. *)
Definition logoPrologue (cfg : Config) : list Ctx.op :=
  let size := qrSize cfg in
  let logoSizePx := (size * logoScale)%Q in
  let logoX := ((size - logoSizePx) / 2)%Q in
  let logoY :=
    (qrOffsetY (labelText cfg) (labelPosition cfg) (labelSize cfg) size
     + (size - logoSizePx) / 2)%Q in
  [ Ctx.save ] ++ logoClip (logoShape cfg) logoX logoY logoSizePx.

(** The label operations, if a label is configured. *)
Definition labelOps (cfg : Config) : list Ctx.op :=
  if truthy (labelText cfg) then drawLabel cfg else [].

(** The canvas of [generateQR] holding the operations [l]. *)
Definition canvasWith (cfg : Config) (l : list Ctx.op) : Canvas :=
  {| width := totalWidth (qrSize cfg);
     height := totalHeight (labelText cfg) (labelSize cfg) (qrSize cfg);
     context2d := true;
     ops := l |}.

(** The state a call of an [async] function leaves behind. *)
Definition run {A : Type} (m : Eff A) (w : World) : World := snd (m w).

(* ================================================================== *)
(** ** Logo handlers *)
(* ================================================================== *)

(** The state setters used below. *)
Definition setText (v : string) (cfg : Config) : Config :=
  {| text := v;
     fgColorMode := fgColorMode cfg; fgColor1 := fgColor1 cfg;
     fgColor2 := fgColor2 cfg; fgGradientType := fgGradientType cfg;
     bgColorMode := bgColorMode cfg; bgColor1 := bgColor1 cfg;
     bgColor2 := bgColor2 cfg; bgGradientType := bgGradientType cfg;
     errorLevel := errorLevel cfg; dotStyle := dotStyle cfg;
     eyeStyle := eyeStyle cfg; logo := logo cfg; logoShape := logoShape cfg;
     qrSize := qrSize cfg; labelText := labelText cfg;
     labelPosition := labelPosition cfg; labelColor := labelColor cfg;
     labelSize := labelSize cfg; labelFont := labelFont cfg |}.

Definition setLogo (v : option string) (cfg : Config) : Config :=
  {| text := text cfg;
     fgColorMode := fgColorMode cfg; fgColor1 := fgColor1 cfg;
     fgColor2 := fgColor2 cfg; fgGradientType := fgGradientType cfg;
     bgColorMode := bgColorMode cfg; bgColor1 := bgColor1 cfg;
     bgColor2 := bgColor2 cfg; bgGradientType := bgGradientType cfg;
     errorLevel := errorLevel cfg; dotStyle := dotStyle cfg;
     eyeStyle := eyeStyle cfg; logo := v; logoShape := logoShape cfg;
     qrSize := qrSize cfg; labelText := labelText cfg;
     labelPosition := labelPosition cfg; labelColor := labelColor cfg;
     labelSize := labelSize cfg; labelFont := labelFont cfg |}.

Definition setErrorLevel (v : ErrorLevel) (cfg : Config) : Config :=
  {| text := text cfg;
     fgColorMode := fgColorMode cfg; fgColor1 := fgColor1 cfg;
     fgColor2 := fgColor2 cfg; fgGradientType := fgGradientType cfg;
     bgColorMode := bgColorMode cfg; bgColor1 := bgColor1 cfg;
     bgColor2 := bgColor2 cfg; bgGradientType := bgGradientType cfg;
     errorLevel := v; dotStyle := dotStyle cfg;
     eyeStyle := eyeStyle cfg; logo := logo cfg; logoShape := logoShape cfg;
     qrSize := qrSize cfg; labelText := labelText cfg;
     labelPosition := labelPosition cfg; labelColor := labelColor cfg;
     labelSize := labelSize cfg; labelFont := labelFont cfg |}.

(** The [reader.onload] callback of [handleLogoUpload]; [result] is
    [ev.target?.result], and [errorLevel] is the value the handler closed
    over.
    [[
      setLogo(ev.target?.result as string);
      if (errorLevel === 'L' || errorLevel === 'M') { setErrorLevel('H'); }
    ]] *)
Definition logoReaderOnload (result : string) (cfg : Config) : Config :=
  let cfg' := setLogo (Some result) cfg in
  match errorLevel cfg with
  | LevelL | LevelM => setErrorLevel LevelH cfg'
  | LevelQ | LevelH => cfg'
  end.

(** [handleLogoUpload(e)].  [file] is [e.target.files?.[0]]: [None] when
    no file was chosen, [Some None] for a file whose read never fires
    [onload], [Some (Some url)] for a file read into the data URL [url]. *)
Definition handleLogoUpload (file : option (option string)) (cfg : Config)
  : Config :=
  match file with
  | Some (Some result) => logoReaderOnload result cfg
  | Some None | None => cfg
  end.

(** The remove-logo button: [setLogo(null); setErrorLevel('M');] *)
Definition removeLogo (cfg : Config) : Config :=
  setErrorLevel LevelM (setLogo None cfg).

(* ================================================================== *)
(** ** Content templates *)
(* ================================================================== *)

Local Open Scope string_scope.

Record WifiData : Type :=
  { ssid : string; password : string; encryption : Encryption;
    hidden : bool }.

Record EmailData : Type :=
  { email : string; subject : string; body : string }.

Record VcardData : Type :=
  { firstName : string; lastName : string; phone : string;
    vcardEmail : string; org : string; title : string; url : string }.

(** The template state of the component. *)
Record Templates : Type :=
  { contentType : QRContentType;
    urlValue : string;
    wifiData : WifiData;
    emailData : EmailData;
    vcardData : VcardData }.

(** The string a template literal substitutes for each value. *)
Definition encryptionName (e : Encryption) : string :=
  match e with WPA => "WPA" | WEP => "WEP" | Nopass => "nopass" end.

Definition booleanToString (b : bool) : string :=
  if b then "true" else "false".

(** The line feed of the vCard literal. *)
Definition LF : string := String (ascii_of_nat 10) EmptyString.

Section Templates.

(** The platform's [encodeURIComponent]. *)
Variable encodeURIComponent : string -> string.

(** The [switch] of the template effect: [None] when it returns before
    [setText] (free text), otherwise the value of [newText]. *)
Definition templateText (t : Templates) : option string :=
  match contentType t with
  | CtText => None
  | CtUrl => Some (urlValue t)
  | CtWifi =>
      let w := wifiData t in
      if truthy (ssid w) then
        let enc :=
          match encryption w with
          | Nopass => ""
          | e => encryptionName e
          end in
        Some ("WIFI:T:" ++ enc ++ ";S:" ++ ssid w ++ ";P:" ++ password w
              ++ ";H:" ++ booleanToString (hidden w) ++ ";;")
      else Some ""
  | CtEmail =>
      let e := emailData t in
      if truthy (email e) then
        Some ("mailto:" ++ email e ++ "?subject="
              ++ encodeURIComponent (subject e) ++ "&body="
              ++ encodeURIComponent (body e))
      else Some ""
  | CtVcard =>
      let v := vcardData t in
      if truthy (firstName v) || truthy (lastName v)
         || truthy (vcardEmail v) || truthy (phone v)
      then
        Some ("BEGIN:VCARD" ++ LF ++ "VERSION:3.0" ++ LF
              ++ "N:" ++ lastName v ++ ";" ++ firstName v ++ ";;;" ++ LF
              ++ "FN:" ++ firstName v ++ " " ++ lastName v ++ LF
              ++ "ORG:" ++ org v ++ LF
              ++ "TITLE:" ++ title v ++ LF
              ++ "TEL:" ++ phone v ++ LF
              ++ "EMAIL:" ++ vcardEmail v ++ LF
              ++ "URL:" ++ url v ++ LF
              ++ "END:VCARD")
      else Some ""
  end.

(** The template [useEffect]: [setText(newText)] unless it returned. *)
Definition templateEffect (t : Templates) (cfg : Config) : Config :=
  match templateText t with
  | Some newText => setText newText cfg
  | None => cfg
  end.

End Templates.

(* ================================================================== *)
(** ** Scan history ([App]) *)
(* ================================================================== *)

(** [ScanResult['type']] *)
Inductive ScanType : Type :=
| TypeUrl | TypeText | TypeWifi | TypeEmail | TypeOther.

(** [interface ScanResult]; timestamps are milliseconds. *)
Record ScanResult : Type :=
  { id : string;
    data : string;
    timestamp : Z;
    type : ScanType;
    aiSummary : option string;
    aiLoading : option bool;
    originalImage : option string }.

(** [s.includes(sub)] *)
Definition includes (sub s : string) : bool :=
  match index 0 sub s with Some _ => true | None => false end.

(** [[
      const type = data.startsWith('http') ? 'url' :
                   data.startsWith('WIFI:') ? 'wifi' :
                   data.includes('@') && data.includes('.') ? 'email' : 'text';
    ]] *)
Definition detectType (data : string) : ScanType :=
  if prefix "http" data then TypeUrl
  else if prefix "WIFI:" data then TypeWifi
  else if includes "@" data && includes "." data then TypeEmail
  else TypeText.

(** The state of [App] that [handleScan] writes. *)
Record AppState : Type :=
  { scannedHistory : list ScanResult;
    currentResult : option ScanResult }.

(** The updater passed to [setScannedHistory]; [now] is the [Date.now()]
    it reads.
    [[
      prev => {
        if (prev.length > 0 && prev[0].data === data
            && (Date.now() - prev[0].timestamp < 2000)) { return prev; }
        return [newScan, ...prev];
      }
    ]] *)
Definition historyUpdater (newScan : ScanResult) (now : Z)
    (prev : list ScanResult) : list ScanResult :=
  match prev with
  | prev0 :: _ =>
      if String.eqb (data prev0) (data newScan)
         && (now - timestamp prev0 <? 2000)%Z
      then prev
      else newScan :: prev
  | [] => newScan :: prev
  end.

(** [handleScan(data, image)], with what it reads from the platform:
    [uuid] from [crypto.randomUUID()], [created] from the [Date.now()] of
    [newScan], and [now] from the [Date.now()] of the updater. *)
Definition newScanOf (data : string) (image : option string)
    (uuid : string) (created : Z) : ScanResult :=
  {| id := uuid; data := data; timestamp := created;
     type := detectType data;
     aiSummary := None; aiLoading := None; originalImage := image |}.

Definition handleScan (data : string) (image : option string)
    (uuid : string) (created now : Z) (st : AppState) : AppState :=
  let newScan := newScanOf data image uuid created in
  {| scannedHistory := historyUpdater newScan now (scannedHistory st);
     currentResult := Some newScan |}.

Local Close Scope string_scope.

(* ================================================================== *)
(** ** Sample inputs *)
(* ================================================================== *)

Module Sample.
Local Open Scope string_scope.

(** A version-1 sized matrix (21x21) with every module on. *)
Definition modules : BitMatrix.t := BitMatrix.make 21 (repeat true 441).

(** The initial [useState] values, with the content ["hello"]. *)
Definition config : Config :=
  {| text := "hello";
     fgColorMode := Solid; fgColor1 := "#000000"; fgColor2 := "#a3e635";
     fgGradientType := Vertical;
     bgColorMode := Solid; bgColor1 := "#ffffff"; bgColor2 := "#e2e8f0";
     bgGradientType := Diagonal;
     errorLevel := LevelM;
     dotStyle := DotSquare;
     eyeStyle := EyeSquare;
     logo := None;
     logoShape := LogoRounded;
     qrSize := 1000%Q;
     labelText := "";
     labelPosition := Bottom;
     labelColor := "#000000";
     labelSize := 60%Q;
     labelFont := "Inter, sans-serif" |}.

(** The same with the label ["Scan me"]. *)
Definition labelled : Config :=
  {| text := "hello";
     fgColorMode := Solid; fgColor1 := "#000000"; fgColor2 := "#a3e635";
     fgGradientType := Vertical;
     bgColorMode := Solid; bgColor1 := "#ffffff"; bgColor2 := "#e2e8f0";
     bgGradientType := Diagonal;
     errorLevel := LevelM;
     dotStyle := DotSquare;
     eyeStyle := EyeSquare;
     logo := None;
     logoShape := LogoRounded;
     qrSize := 1000%Q;
     labelText := "Scan me";
     labelPosition := Top;
     labelColor := "#000000";
     labelSize := 60%Q;
     labelFont := "Inter, sans-serif" |}.

(** An uploaded file that is not an image: its data URL cannot be decoded. *)
Definition notAnImage : string := "data:text/plain;base64,aGVsbG8=".

(** [labelled] after that upload. *)
Definition brokenLogo : Config := logoReaderOnload notAnImage labelled.

Definition canvas : Canvas :=
  {| width := 300%Q; height := 150%Q; context2d := true; ops := [] |}.

(** A mounted component showing an earlier rendering. *)
Definition world : World :=
  {| generatedBase64 := "data:image/png;base64,EARLIER";
     canvasRef := Some canvas;
     console := [] |}.

Definition QRCode_create (text : string) (level : ErrorLevel)
  : Exn + BitMatrix.t := inr modules.

Definition toDataURL (cv : Canvas) : string := "data:image/png;base64,NEW".

(** Only [data:image/...] URLs decode. *)
Definition imageLoads (src : string) : bool := prefix "data:image/" src.

Definition wifi : WifiData :=
  {| ssid := "Home"; password := "secret1"; encryption := WPA;
     hidden := false |}.

Definition templates : Templates :=
  {| contentType := CtWifi;
     urlValue := "";
     wifiData := wifi;
     emailData := {| email := ""; subject := ""; body := "" |};
     vcardData := {| firstName := ""; lastName := ""; phone := "";
                     vcardEmail := ""; org := ""; title := ""; url := "" |} |}.

(** A history whose top entry is a scan of ["x"] made at time 0. *)
Definition history : AppState :=
  {| scannedHistory := [ newScanOf "x" None "id-0" 0 ];
     currentResult := None |}.

End Sample.

(* ================================================================== *)
(** ** Classifying context operations *)
(* ================================================================== *)

(** The operations that only build the current path. *)
Definition isPathOp (o : Ctx.op) : bool :=
  match o with
  | Ctx.beginPath | Ctx.closePath | Ctx.moveTo _ _ | Ctx.lineTo _ _
  | Ctx.quadraticCurveTo _ _ _ _ | Ctx.arc _ _ _ _ _ | Ctx.rect _ _ _ _ =>
      true
  | _ => false
  end.

(* ================================================================== *)
(** ** The result modal ([ResultModal.tsx]) *)
(* ================================================================== *)

Local Open Scope string_scope.

(** The capture group [([^;]+)] read greedily from the start of [s]: the
    longest prefix without a semicolon. *)
Fixpoint takeUntilSemicolon (s : string) : string :=
  match s with
  | EmptyString => EmptyString
  | String a rest =>
      if Ascii.eqb a ";" then EmptyString
      else String a (takeUntilSemicolon rest)
  end.

(** [s.match(/K:([^;]+)/)?.[1]] for a one-letter key [K]: the capture of
    the leftmost position where [K], a colon and at least one character
    other than a semicolon follow each other; [None] when there is none. *)
Fixpoint matchField (key : ascii) (s : string) : option string :=
  match s with
  | EmptyString => None
  | String a rest =>
      let here :=
        if Ascii.eqb a key then
          match rest with
          | String colon value =>
              if Ascii.eqb colon ":" then takeUntilSemicolon value
              else EmptyString
          | EmptyString => EmptyString
          end
        else EmptyString in
      match here with
      | String _ _ => Some here
      | EmptyString => matchField key rest
      end
  end.

(** [value || fallback] for an optional string. *)
Definition orDefault (value : option string) (fallback : string) : string :=
  match value with
  | Some v => if truthy v then v else fallback
  | None => fallback
  end.

(** [s.replace(pattern, replacement)] with a string pattern: the first
    occurrence only. *)
Fixpoint replaceFirst (pattern replacement s : string) : string :=
  if prefix pattern s then
    replacement
    ++ substring (String.length pattern)
                 (String.length s - String.length pattern) s
  else
    match s with
    | EmptyString => EmptyString
    | String a rest => String a (replaceFirst pattern replacement rest)
    end.

(** [s.split('?')[0]]: what precedes the first question mark. *)
Fixpoint beforeQuestionMark (s : string) : string :=
  match s with
  | EmptyString => EmptyString
  | String a rest =>
      if Ascii.eqb a "?" then EmptyString
      else String a (beforeQuestionMark rest)
  end.

(** What follows the first question mark, if there is one. *)
Fixpoint afterQuestionMark (s : string) : option string :=
  match s with
  | EmptyString => None
  | String a rest =>
      if Ascii.eqb a "?" then Some rest else afterQuestionMark rest
  end.

(** [s.split('?')[1] || '']: the piece between the first and the second
    question mark. *)
Definition querySegment (s : string) : string :=
  match afterQuestionMark s with
  | Some rest => beforeQuestionMark rest
  | None => EmptyString
  end.

(** Whether the character [c] occurs in [s]. *)
Fixpoint hasChar (c : ascii) (s : string) : bool :=
  match s with
  | EmptyString => false
  | String a rest => Ascii.eqb a c || hasChar c rest
  end.

(** What [renderContent] shows. *)
Inductive ContentView : Type :=
| WifiCard (ssid password security : string)
| EmailCard (address : string) (subject body : option string)
| UrlCard (hostname : string)
| TextCard (content : string).

Section ResultModal.

(** [new URLSearchParams(query).get(name)]. *)
Variable URLSearchParams_get : string -> string -> option string.

(** [new URL(data).hostname], or [None] when the constructor throws. *)
Variable URL_hostname : string -> option string.

(** [renderContent()], for a non-null [result]:
    [[
      const isUrl = result.type === 'url';
      const isWifi = result.data.startsWith('WIFI:');
      const isEmail = result.data.startsWith('mailto:');
    ]]
    and the branches taken in the order wifi, email, url, plain text. *)
Definition renderContent (result : ScanResult) : ContentView :=
  let isUrl := match type result with TypeUrl => true | _ => false end in
  let isWifi := prefix "WIFI:" (data result) in
  let isEmail := prefix "mailto:" (data result) in
  if isWifi then
    WifiCard (orDefault (matchField "S" (data result)) "Unknown Network")
             (orDefault (matchField "P" (data result)) "")
             (orDefault (matchField "T" (data result)) "None")
  else if isEmail then
    let query := querySegment (data result) in
    EmailCard (beforeQuestionMark (replaceFirst "mailto:" "" (data result)))
              (URLSearchParams_get query "subject")
              (URLSearchParams_get query "body")
  else if isUrl then
    UrlCard (match URL_hostname (data result) with
             | Some h => h
             | None => "Website"
             end)
  else TextCard (data result).

End ResultModal.

(** [interface GeminiAnalysis] *)
Inductive SafetyRating : Type := Safe | Caution | Unknown.

Record GeminiAnalysis : Type :=
  { summary : string;
    safetyRating : SafetyRating;
    category : string;
    actions : list string }.

(* ================================================================== *)
(** ** The other handlers of [App] *)
(* ================================================================== *)

(** [interface GeneratedQR] *)
Record GeneratedQR : Type :=
  { gen_id : string; gen_data : string; gen_timestamp : Z;
    gen_base64 : string }.

(** [handleGenerate]: [setGeneratedHistory(prev => [item, ...prev])]. *)
Definition handleGenerate (item : GeneratedQR) (prev : list GeneratedQR)
  : list GeneratedQR :=
  item :: prev.

(** [[
      const updateScanResult = useCallback((updated: ScanResult) => {
        setCurrentResult(updated);
        setScannedHistory(prev => prev.map(p => p.id === updated.id ? updated : p));
      }, []);
    ]] *)
Definition updateScanResult (updated : ScanResult) (st : AppState)
  : AppState :=
  {| scannedHistory :=
       map (fun p => if String.eqb (id p) (id updated) then updated else p)
           (scannedHistory st);
     currentResult := Some updated |}.

(** [{ ...result, aiSummary: v }] *)
Definition withAiSummary (result : ScanResult) (v : string) : ScanResult :=
  {| id := id result; data := data result; timestamp := timestamp result;
     type := type result; aiSummary := Some v;
     aiLoading := aiLoading result;
     originalImage := originalImage result |}.

(** The part of the modal's state that [handleAnalyze] writes. *)
Record ModalState : Type :=
  { analyzing : bool; analysis : option GeminiAnalysis }.

(** [handleAnalyze], with [aiData] the value [analyzeContent(result.data)]
    resolves to and [onUpdate] bound to [updateScanResult]:
    [[
      if (!result || !aiAvailable) return;
      setAnalyzing(true);
      const aiData = await analyzeContent(result.data);
      setAnalyzing(false);
      if (aiData) {
        setAnalysis(aiData);
        onUpdate({ ...result, aiSummary: aiData.summary });
      }
    ]] *)
Definition handleAnalyze (aiAvailable : bool)
    (aiData : option GeminiAnalysis) (result : option ScanResult)
    (modal : ModalState) (st : AppState) : ModalState * AppState :=
  match result with
  | None => (modal, st)
  | Some result =>
      if negb aiAvailable then (modal, st)
      else
        match aiData with
        | Some aiData =>
            ({| analyzing := false; analysis := Some aiData |},
             updateScanResult (withAiSummary result (summary aiData)) st)
        | None => ({| analyzing := false; analysis := analysis modal |}, st)
        end
  end.

(** [handleDownload] of the generator, as far as the application state
    goes: nothing without an output, otherwise the [onGenerate] call, bound
    to [handleGenerate].  [uuid] is [crypto.randomUUID()] and [now] the
    [Date.now()] of the history item.
    [[
      if (!generatedBase64) return;
      ...
      onGenerate({ id: crypto.randomUUID(), data: text,
                   timestamp: Date.now(), base64: generatedBase64 });
    ]] *)
Definition handleDownload (cfg : Config) (w : World) (uuid : string)
    (now : Z) (generatedHistory : list GeneratedQR) : list GeneratedQR :=
  if negb (truthy (generatedBase64 w)) then generatedHistory
  else
    handleGenerate
      {| gen_id := uuid; gen_data := text cfg; gen_timestamp := now;
         gen_base64 := generatedBase64 w |}
      generatedHistory.

Local Close Scope string_scope.

(* ================================================================== *)
(** ** Contrast check of the generator *)
(* ================================================================== *)

Local Open Scope string_scope.

(** One character of the class [[a-f\d]] under the [i] flag, as the
    digit [parseInt(_, 16)] reads; by character code: [0-9] are 48..57,
    [A-F] are 65..70 and [a-f] are 97..102. *)
Definition hexDigit (c : ascii) : option Z :=
  let code := Z.of_nat (nat_of_ascii c) in
  if ((48 <=? code) && (code <=? 57))%Z then Some (code - 48)
  else if ((65 <=? code) && (code <=? 70))%Z then Some (code - 55)
  else if ((97 <=? code) && (code <=? 102))%Z then Some (code - 87)
  else None.

(** [parseInt(result[i], 16)] for a two-character group. *)
Definition hexPair (hi lo : ascii) : option Z :=
  match hexDigit hi, hexDigit lo with
  | Some h, Some l => Some (16 * h + l)
  | _, _ => None
  end.

(** [/^#?([a-f\d]{2})([a-f\d]{2})([a-f\d]{2})$/i.exec(hex)], with the three
    groups already read as numbers. *)
Definition parseHexColor (hex : string) : option (Z * Z * Z) :=
  let digits :=
    match hex with
    | String "#" rest => rest
    | _ => hex
    end in
  match digits with
  | String r1 (String r2 (String g1 (String g2 (String b1 (String b2
      EmptyString))))) =>
      match hexPair r1 r2, hexPair g1 g2, hexPair b1 b2 with
      | Some r, Some g, Some b => Some (r, g, b)
      | _, _, _ => None
      end
  | _ => None
  end.

Section Contrast.

(** [Math.pow]. *)
Variable pow : Q -> Q -> Q.

Local Open Scope Q_scope.

(** [[
      v => { v /= 255;
             return v <= 0.03928 ? v / 12.92
                                 : Math.pow((v + 0.055) / 1.055, 2.4); }
    ]] *)
Definition linearChannel (v : Z) : Q :=
  let v := inject_Z v / 255 in
  if Qle_bool v 0.03928 then v / 12.92
  else pow ((v + 0.055) / 1.055) 2.4.

(** [getLuminance(hex)]; [0.5] when the pattern does not match. *)
Definition getLuminance (hex : string) : Q :=
  match parseHexColor hex with
  | None => 0.5
  | Some (r, g, b) =>
      linearChannel r * 0.2126 + linearChannel g * 0.7152
      + linearChannel b * 0.0722
  end.

(** [[
      const l1 = getLuminance(fgColor1); const l2 = getLuminance(bgColor1);
      const lighter = Math.max(l1, l2); const darker = Math.min(l1, l2);
      return (lighter + 0.05) / (darker + 0.05);
    ]] *)
Definition contrastRatio (fgColor1 bgColor1 : string) : Q :=
  let l1 := getLuminance fgColor1 in
  let l2 := getLuminance bgColor1 in
  let lighter := Qmax l1 l2 in
  let darker := Qmin l1 l2 in
  (lighter + 0.05) / (darker + 0.05).

(** [const isLowContrast = contrastRatio < 2.2;] *)
Definition isLowContrast (fgColor1 bgColor1 : string) : bool :=
  negb (Qle_bool 2.2 (contrastRatio fgColor1 bgColor1)).

End Contrast.

Local Close Scope string_scope.

(* ================================================================== *)
(** ** Numeric parts of the scanner *)
(* ================================================================== *)

Local Open Scope Q_scope.

(** The downsampling of an uploaded image in [handleFileUpload]; the
    result is the pair [(width, height)] given to [drawImage].
    [[
      let width = img.width; let height = img.height;
      const maxDimension = 1200;
      if (width > maxDimension || height > maxDimension) {
        const ratio = Math.min(maxDimension / width, maxDimension / height);
        width *= ratio; height *= ratio;
      }
    ]] *)
Definition maxDimension : Q := 1200.

Definition downsample (width height : Q) : Q * Q :=
  if negb (Qle_bool width maxDimension) || negb (Qle_bool height maxDimension)
  then
    let ratio := Qmin (maxDimension / width) (maxDimension / height) in
    (width * ratio, height * ratio)
  else (width, height).

(** The frame scaling of the scanning loop:
    [const scale = Math.min(1, 800 / video.videoWidth);]
    [const scanW = video.videoWidth * scale;]
    [const scanH = video.videoHeight * scale;]
    [const invScale = 1 / scale;] *)
Definition scanScale (videoWidth : Q) : Q := Qmin 1 (800 / videoWidth).

Definition scanW (videoWidth : Q) : Q := videoWidth * scanScale videoWidth.

Definition scanH (videoWidth videoHeight : Q) : Q :=
  videoHeight * scanScale videoWidth.

Definition invScale (videoWidth : Q) : Q := 1 / scanScale videoWidth.

Local Close Scope Q_scope.

(** [cameras.findIndex(c => c.deviceId === activeCameraId)], cameras given
    by their device ids; [-1] when no camera matches. *)
Fixpoint findIndexFrom (i : Z) (activeCameraId : option string)
    (cameras : list string) : Z :=
  match cameras with
  | [] => -1
  | deviceId :: rest =>
      match activeCameraId with
      | Some active =>
          if String.eqb deviceId active then i
          else findIndexFrom (i + 1) activeCameraId rest
      | None => findIndexFrom (i + 1) activeCameraId rest
      end
  end.

(** [[
      const switchCamera = () => {
        if (cameras.length > 1) {
          const currentIndex = cameras.findIndex(c => c.deviceId === activeCameraId);
          const nextIndex = (currentIndex + 1) % cameras.length;
          setActiveCameraId(cameras[nextIndex].deviceId);
        }
      };
    ]]
    The result is the new [activeCameraId]. *)
Definition switchCamera (cameras : list string)
    (activeCameraId : option string) : option string :=
  if 1 <? Z.of_nat (List.length cameras) then
    let currentIndex := findIndexFrom 0 activeCameraId cameras in
    let nextIndex := Z.rem (currentIndex + 1) (Z.of_nat (List.length cameras)) in
    nth_error cameras (Z.to_nat nextIndex)
  else activeCameraId.

(* ================================================================== *)
(** * Properties *)
(* ================================================================== *)

(** ** Geometry planner *)

Lemma moduleCount_plus_margin_nonzero (moduleCount : nat) :
  ~ (inject_Z (Z.of_nat moduleCount + margin * 2) == 0)%Q.
Proof.
  unfold Qeq, margin; simpl. lia.
Qed.

Lemma cellSize_mult (size : Q) (moduleCount : nat) :
  (cellSize size moduleCount * inject_Z (Z.of_nat moduleCount + margin * 2)
   == size)%Q.
Proof.
  unfold cellSize. rewrite Qmult_comm. apply Qmult_div_r.
  apply moduleCount_plus_margin_nonzero.
Qed.

(** C5: for every module count N and the fixed margin M = 2, the cell
    size satisfies [cellSize * (N + 2M) == outputSize] exactly, as an
    equation over the rationals. *)
Theorem cellSize_times_span (size : Q) (moduleCount : nat) :
  (cellSize size moduleCount * inject_Z (Z.of_nat moduleCount + 2 * margin)
   == size)%Q.
Proof.
  replace (2 * margin) with (margin * 2) by reflexivity.
  apply cellSize_mult.
Qed.

Lemma cellSize_zero_iff (size : Q) (moduleCount : nat) :
  (cellSize size moduleCount == 0 <-> size == 0)%Q.
Proof.
  split; intros H.
  - rewrite <- (cellSize_mult size moduleCount), H. ring.
  - unfold cellSize. rewrite H. unfold Qdiv. ring.
Qed.

(** With a non-zero output size the ratio that [Math.ceil] receives is
    [logoScale * (moduleCount + 4)], whatever the size. *)
Lemma logo_ratio (size : Q) (moduleCount : nat) :
  ~ (size == 0)%Q ->
  ((size * logoScale) / cellSize size moduleCount
   == logoScale * inject_Z (Z.of_nat moduleCount + margin * 2))%Q.
Proof.
  intros Hs. unfold cellSize.
  pose proof (moduleCount_plus_margin_nonzero moduleCount) as Hn.
  field. split; assumption.
Qed.

Lemma adjustedSize_odd (size : Q) (moduleCount : nat) :
  Z.odd (adjustedSize size moduleCount) = true.
Proof.
  unfold adjustedSize.
  generalize (logoModuleSize size moduleCount); intros l.
  destruct (Z.eqb_spec (Z.rem l 2) 0) as [E | E].
  - rewrite Z.add_1_r, Z.odd_succ.
    pose proof (Z.quot_rem' l 2) as D. rewrite E in D.
    rewrite D, Z.add_0_r, Z.even_mul. reflexivity.
  - destruct (Z.odd l) eqn:O; [reflexivity |].
    exfalso. apply E.
    rewrite <- Z.negb_even in O. apply negb_false_iff in O.
    apply Z.even_spec in O. destruct O as [k ->].
    rewrite Z.mul_comm. apply Z.rem_mul. lia.
Qed.

Lemma half_difference (n a m k : Z) :
  n = 2 * m + 1 -> a = 2 * k + 1 ->
  (inject_Z n / 2 - inject_Z a / 2 == inject_Z (m - k))%Q.
Proof.
  intros -> ->. unfold Zminus.
  rewrite !inject_Z_plus, !inject_Z_mult, inject_Z_opp. simpl inject_Z. field.
Qed.

Lemma half_sum (n a m k : Z) :
  n = 2 * m + 1 -> a = 2 * k + 1 ->
  (inject_Z n / 2 + inject_Z a / 2 == inject_Z (m + k + 1))%Q.
Proof.
  intros -> ->.
  rewrite !inject_Z_plus, !inject_Z_mult. simpl inject_Z. field.
Qed.

(** The bounds in closed form: for odd [moduleCount = 2m+1] and the odd
    [adjustedSize = 2k+1] the square is [[m - k, m + k + 1)]. *)
Lemma logoBounds_closed_form (logo : option string) (size : Q)
    (moduleCount : nat) (m k : Z) :
  truthy_opt logo = true ->
  ~ (size == 0)%Q ->
  Z.of_nat moduleCount = 2 * m + 1 ->
  adjustedSize size moduleCount = 2 * k + 1 ->
  logoBounds logo size moduleCount = Some (m - k, m + k + 1).
Proof.
  intros Hlogo Hsize Hn Ha. unfold logoBounds. rewrite Hlogo.
  destruct (Qeq_bool (cellSize size moduleCount) 0) eqn:Hc.
  - apply Qeq_bool_iff, cellSize_zero_iff in Hc. contradiction.
  - cbv zeta.
    rewrite (Qfloor_comp _ _ (half_difference _ _ m k Hn Ha)), Qfloor_Z.
    rewrite (Qceiling_comp _ _ (half_sum _ _ m k Hn Ha)), Qceiling_Z.
    reflexivity.
Qed.

(** C2: for every odd module count and every (non-zero) output size, with
    a logo attached, the exclusion square [[logoStart, logoEnd)] has an odd
    side in module units, namely [adjustedSize], and is symmetric about the
    centre module index [(N-1)/2]. *)
Theorem logo_exclusion_odd_and_centered (logo : option string) (size : Q)
    (moduleCount : nat) :
  truthy_opt logo = true ->
  Z.odd (Z.of_nat moduleCount) = true ->
  ~ (size == 0)%Q ->
  exists logoStart logoEnd : Z,
    logoBounds logo size moduleCount = Some (logoStart, logoEnd) /\
    logoEnd - logoStart = adjustedSize size moduleCount /\
    Z.odd (logoEnd - logoStart) = true /\
    (Z.of_nat moduleCount - 1) / 2 - logoStart
    = (logoEnd - 1) - (Z.of_nat moduleCount - 1) / 2.
Proof.
  intros Hlogo Hodd Hsize.
  apply Z.odd_spec in Hodd. destruct Hodd as [m Hm].
  pose proof (adjustedSize_odd size moduleCount) as Ha.
  apply Z.odd_spec in Ha. destruct Ha as [k Hk].
  exists (m - k), (m + k + 1).
  split; [apply logoBounds_closed_form; assumption |].
  split; [lia |].
  split; [rewrite Z.odd_spec; exists k; lia |].
  rewrite Hm. replace (2 * m + 1 - 1) with (m * 2) by lia.
  rewrite Z.div_mul by lia. lia.
Qed.

Lemma logo_exclusion_odd_and_centered_witness :
  exists logoStart logoEnd : Z,
    logoBounds (Some "data:image/png;base64,AAAA"%string) 1000 21
    = Some (logoStart, logoEnd) /\
    logoEnd - logoStart = adjustedSize 1000 21 /\
    Z.odd (logoEnd - logoStart) = true /\
    (Z.of_nat 21 - 1) / 2 - logoStart = (logoEnd - 1) - (Z.of_nat 21 - 1) / 2.
Proof.
  apply (logo_exclusion_odd_and_centered
           (Some "data:image/png;base64,AAAA"%string) 1000 21).
  - reflexivity.
  - reflexivity.
  - unfold Qeq; simpl; lia.
Defined.

(** At output size 0 the cell size is 0 and the bounds are NaN; the size
    slider of the component ranges over 500..2000. *)
Example logoBounds_size_zero :
  logoBounds (Some "x"%string) 0 21 = None.
Proof. reflexivity. Qed.

Example logoBounds_version1 :
  logoBounds (Some "x"%string) 1000 21 = Some (7, 14).
Proof. vm_compute. reflexivity. Qed.

(** ** Data-module loop *)

Lemma isFinderPattern_spec (moduleCount r c : nat) :
  isFinderPattern moduleCount r c = true <->
  (Z.of_nat r < 7 /\ Z.of_nat c < 7)
  \/ (Z.of_nat r < 7 /\ Z.of_nat c >= Z.of_nat moduleCount - 7)
  \/ (Z.of_nat r >= Z.of_nat moduleCount - 7 /\ Z.of_nat c < 7).
Proof.
  unfold isFinderPattern.
  rewrite !orb_true_iff, !andb_true_iff, !Z.ltb_lt, !Z.geb_le.
  lia.
Qed.

Lemma in_for_upto {A : Type} (n : nat) (body : nat -> list A) (a : A) :
  In a (for_upto n body) <-> exists i, (i < n)%nat /\ In a (body i).
Proof.
  unfold for_upto. rewrite in_flat_map. split.
  - intros [i [Hi Ha]]. apply in_seq in Hi. exists i. split; [lia | exact Ha].
  - intros [i [Hi Ha]]. exists i. split; [apply in_seq; lia | exact Ha].
Qed.

(** What the loop body issues for index [(r, c)]: at most one call, for
    that index, and only for an "on" module outside both skip zones. *)
Lemma in_dataModuleBody (cfg : Config) (modules : BitMatrix.t) (r c : nat)
    (d : ModuleDraw) :
  In d (dataModuleBody cfg modules r c) <->
  underLogo (logo cfg)
    (logoBounds (logo cfg) (qrSize cfg) (BitMatrix.size modules)) r c = false
  /\ isFinderPattern (BitMatrix.size modules) r c = false
  /\ BitMatrix.get modules r c = true
  /\ d = {| md_row := r; md_col := c;
            md_x := (offset (qrSize cfg) (BitMatrix.size modules)
                     + inject_Z (Z.of_nat c)
                       * cellSize (qrSize cfg) (BitMatrix.size modules))%Q;
            md_y := (qrOffsetY (labelText cfg) (labelPosition cfg)
                               (labelSize cfg) (qrSize cfg)
                     + offset (qrSize cfg) (BitMatrix.size modules)
                     + inject_Z (Z.of_nat r)
                       * cellSize (qrSize cfg) (BitMatrix.size modules))%Q;
            md_size := cellSize (qrSize cfg) (BitMatrix.size modules);
            md_style := dotStyle cfg |}.
Proof.
  unfold dataModuleBody.
  destruct (underLogo _ _ r c); [simpl; intuition discriminate |].
  destruct (isFinderPattern _ r c); [simpl; intuition discriminate |].
  destruct (BitMatrix.get modules r c); simpl.
  - split.
    + intros [<- | []]. repeat split.
    + intros (_ & _ & _ & ->). left. reflexivity.
  - intuition discriminate.
Qed.

Lemma in_dataModuleLoop (cfg : Config) (modules : BitMatrix.t)
    (d : ModuleDraw) :
  In d (dataModuleLoop cfg modules) <->
  exists r c, (r < BitMatrix.size modules)%nat
              /\ (c < BitMatrix.size modules)%nat
              /\ In d (dataModuleBody cfg modules r c).
Proof.
  unfold dataModuleLoop. rewrite in_for_upto. split.
  - intros [r [Hr Hd]]. apply in_for_upto in Hd. destruct Hd as [c [Hc Hd]].
    exists r, c. auto.
  - intros (r & c & Hr & Hc & Hd). exists r. split; [exact Hr |].
    apply in_for_upto. exists c. auto.
Qed.

(** C1: whatever the matrix contents, dot style and logo, the data-module
    loop issues no [drawModule] call for an index [(r, c)] inside one of
    the three 7x7 finder zones,
    [(r<7 && c<7) || (r<7 && c>=N-7) || (r>=N-7 && c<7)]. *)
Theorem no_data_module_in_finder_zone (cfg : Config) (modules : BitMatrix.t)
    (r c : nat) :
  (Z.of_nat r < 7 /\ Z.of_nat c < 7)
  \/ (Z.of_nat r < 7 /\ Z.of_nat c >= Z.of_nat (BitMatrix.size modules) - 7)
  \/ (Z.of_nat r >= Z.of_nat (BitMatrix.size modules) - 7 /\ Z.of_nat c < 7) ->
  forall d : ModuleDraw,
    In d (dataModuleLoop cfg modules) -> ~ (md_row d = r /\ md_col d = c).
Proof.
  intros Hzone d Hd [Hr Hc].
  apply in_dataModuleLoop in Hd. destruct Hd as (r' & c' & _ & _ & Hd).
  apply in_dataModuleBody in Hd. destruct Hd as (_ & Hfinder & _ & ->).
  simpl in Hr, Hc. subst r' c'.
  apply isFinderPattern_spec in Hzone. congruence.
Qed.

(** The loop is not silent elsewhere: an "on" module inside the matrix and
    outside both skip zones gets its call. *)
Lemma data_module_drawn (cfg : Config) (modules : BitMatrix.t) (r c : nat) :
  (r < BitMatrix.size modules)%nat -> (c < BitMatrix.size modules)%nat ->
  underLogo (logo cfg)
    (logoBounds (logo cfg) (qrSize cfg) (BitMatrix.size modules)) r c = false ->
  isFinderPattern (BitMatrix.size modules) r c = false ->
  BitMatrix.get modules r c = true ->
  exists d, In d (dataModuleLoop cfg modules)
            /\ md_row d = r /\ md_col d = c.
Proof.
  intros Hr Hc Hl Hf Hg. eexists. split.
  - apply in_dataModuleLoop. exists r, c. split; [exact Hr |].
    split; [exact Hc |]. apply in_dataModuleBody. repeat split; eassumption.
  - split; reflexivity.
Qed.

Lemma no_data_module_in_finder_zone_witness :
  (Z.of_nat 3 < 7
   /\ Z.of_nat 17 >= Z.of_nat (BitMatrix.size Sample.modules) - 7)
  /\ (forall d : ModuleDraw,
         In d (dataModuleLoop Sample.config Sample.modules) ->
         ~ (md_row d = 3%nat /\ md_col d = 17%nat)).
Proof.
  assert (Hzone : Z.of_nat 3 < 7
                  /\ Z.of_nat 17 >= Z.of_nat (BitMatrix.size Sample.modules) - 7)
    by (simpl; lia).
  split; [exact Hzone |].
  apply (no_data_module_in_finder_zone Sample.config Sample.modules 3 17).
  right; left. exact Hzone.
Defined.

(** The sample matrix has that module on; two columns to the left, outside
    the finder zone, it is drawn. *)
Example sample_module_outside_zone_drawn :
  BitMatrix.get Sample.modules 3 17 = true
  /\ exists d, In d (dataModuleLoop Sample.config Sample.modules)
               /\ md_row d = 8%nat /\ md_col d = 17%nat.
Proof.
  split; [reflexivity |].
  apply data_module_drawn; try reflexivity; simpl; lia.
Qed.

(** ** [generateQR] *)

Section RendererFacts.

Variable QRCode_create : string -> ErrorLevel -> Exn + BitMatrix.t.
Variable toDataURL : Canvas -> string.
Variable imageLoads : string -> bool.

(** The state after the painting that precedes the "Draw Logo" block. *)
Lemma compose_unfold (rejects : bool) (cfg : Config) (w : World)
    (modules : BitMatrix.t) (cv : Canvas) :
  QRCode_create (text cfg) (errorLevel cfg) = inr modules ->
  canvasRef w = Some cv ->
  context2d cv = true ->
  compose QRCode_create toDataURL imageLoads rejects cfg w
  = bind match logo cfg with
         | Some src =>
             when (truthy src) (drawLogo imageLoads rejects cfg src)
         | None => ret tt
         end
      (fun _ =>
         bind (when (truthy (labelText cfg)) (emit (drawLabel cfg)))
           (fun _ =>
              bind canvasRef_current
                (fun cv' =>
                   setGeneratedBase64
                     match cv' with
                     | Some cv' => toDataURL cv'
                     | None => EmptyString
                     end)))
      {| generatedBase64 := generatedBase64 w;
         canvasRef := Some (canvasWith cfg (paintedBeforeLogo cfg modules));
         console := console w |}.
Proof.
  intros Hqr Hcv Hctx.
  destruct w as [gb cref con]; simpl in Hcv; subst cref.
  destruct cv as [cw ch c2d cops]; simpl in Hctx; subst c2d.
  unfold compose, createQR. rewrite Hqr. reflexivity.
Qed.

Ltac run_effects :=
  cbv beta iota zeta
      delta [bind ret when throw return_ tryCatch emit updateCanvas
             canvasRef_current setGeneratedBase64 console_error
             drawLogo awaitImage ctx_drawImage
             canvasRef generatedBase64 console option_map
             canvasWith width height context2d ops labelOps logoPrologue].

(** A logo that fails to load, on a platform whose [drawImage] raises for
    a broken image: the exception leaves the [try] block after the clip
    path; nothing later is issued, the output state keeps its old value,
    and the error is logged. *)
Lemma generateQR_broken_logo_rejected (cfg : Config) (w : World)
    (modules : BitMatrix.t) (cv : Canvas) (src : string) :
  truthy (text cfg) = true ->
  QRCode_create (text cfg) (errorLevel cfg) = inr modules ->
  canvasRef w = Some cv ->
  context2d cv = true ->
  logo cfg = Some src ->
  truthy src = true ->
  imageLoads src = false ->
  generateQR QRCode_create toDataURL imageLoads true cfg w
  = (Normal tt,
     {| generatedBase64 := generatedBase64 w;
        canvasRef :=
          Some (canvasWith cfg
                  (paintedBeforeLogo cfg modules ++ logoPrologue cfg));
        console :=
          console w
          ++ [("QR Generation failed"%string, InvalidStateError)] |}).
Proof.
  intros Htext Hqr Hcv Hctx Hlogo Hsrc Himg.
  unfold generateQR. rewrite Htext. cbv beta iota delta [negb tryCatch].
  rewrite (compose_unfold _ _ _ _ _ Hqr Hcv Hctx).
  rewrite Hlogo. run_effects. rewrite Hsrc, Himg.
  cbv beta iota. rewrite <- !app_assoc. reflexivity.
Qed.


(** A logo that loads: the image is drawn inside the clip. *)
Lemma generateQR_logo_loaded (rejects : bool) (cfg : Config) (w : World)
    (modules : BitMatrix.t) (cv : Canvas) (src : string) :
  truthy (text cfg) = true ->
  QRCode_create (text cfg) (errorLevel cfg) = inr modules ->
  canvasRef w = Some cv ->
  context2d cv = true ->
  logo cfg = Some src ->
  truthy src = true ->
  imageLoads src = true ->
  let logoSizePx := (qrSize cfg * logoScale)%Q in
  let logoX := ((qrSize cfg - logoSizePx) / 2)%Q in
  let logoY :=
    (qrOffsetY (labelText cfg) (labelPosition cfg) (labelSize cfg)
               (qrSize cfg)
     + (qrSize cfg - logoSizePx) / 2)%Q in
  let painted :=
    canvasWith cfg
      (paintedBeforeLogo cfg modules ++ logoPrologue cfg
       ++ [Ctx.drawImage src logoX logoY logoSizePx logoSizePx; Ctx.restore]
       ++ labelOps cfg) in
  generateQR QRCode_create toDataURL imageLoads rejects cfg w
  = (Normal tt,
     {| generatedBase64 := toDataURL painted;
        canvasRef := Some painted;
        console := console w |}).
Proof.
  intros Htext Hqr Hcv Hctx Hlogo Hsrc Himg sz lx ly painted.
  subst painted sz lx ly.
  unfold generateQR. rewrite Htext. cbv beta iota delta [negb tryCatch].
  rewrite (compose_unfold _ _ _ _ _ Hqr Hcv Hctx).
  rewrite Hlogo. run_effects. rewrite Hsrc, Himg.
  destruct (truthy (labelText cfg)); cbv beta iota;
    rewrite <- ?app_assoc, ?app_nil_r; reflexivity.
Qed.



(** C8: with an empty content string [generateQR] produces no image: it
    sets the generated output to the empty string and returns; it draws
    nothing (the canvas is untouched), raises nothing (the completion is a
    plain [return]) and logs nothing. *)
Theorem empty_content_produces_no_image (rejects : bool) (cfg : Config)
    (w : World) :
  text cfg = EmptyString ->
  generateQR QRCode_create toDataURL imageLoads rejects cfg w
  = (Return,
     {| generatedBase64 := EmptyString;
        canvasRef := canvasRef w;
        console := console w |}).
Proof.
  intros Htext. unfold generateQR. rewrite Htext. reflexivity.
Qed.


End RendererFacts.

Local Open Scope string_scope.

Lemma empty_content_produces_no_image_witness :
  generateQR Sample.QRCode_create Sample.toDataURL Sample.imageLoads true
             (setText "" Sample.config) Sample.world
  = (Return,
     {| generatedBase64 := "";
        canvasRef := canvasRef Sample.world;
        console := console Sample.world |}).
Proof.
  apply (empty_content_produces_no_image
           Sample.QRCode_create Sample.toDataURL Sample.imageLoads true
           (setText "" Sample.config) Sample.world).
  reflexivity.
Defined.


(** ** A logo that fails to load *)

(** C7 (the code departs from the claim): the upload of a file that is not
    an image, on a platform whose [drawImage] raises for a broken image.
    The rendering is cut short after the clip path: the label is never
    drawn, [generatedBase64] keeps the earlier image instead of the
    canvas's, and the console receives "QR Generation failed". *)
Theorem broken_logo_aborts_rendering :
  generateQR Sample.QRCode_create Sample.toDataURL Sample.imageLoads true
             Sample.brokenLogo Sample.world
  = (Normal tt,
     {| generatedBase64 := "data:image/png;base64,EARLIER";
        canvasRef :=
          Some (canvasWith Sample.brokenLogo
                  (paintedBeforeLogo Sample.brokenLogo Sample.modules
                   ++ logoPrologue Sample.brokenLogo));
        console := [("QR Generation failed", InvalidStateError)] |}).
Proof.
  apply (generateQR_broken_logo_rejected
           Sample.QRCode_create Sample.toDataURL Sample.imageLoads
           Sample.brokenLogo Sample.world Sample.modules Sample.canvas
           Sample.notAnImage);
    reflexivity.
Qed.

(** ** Fill resolver *)

(** C9: in solid mode [getFillStyle] returns the first colour, whatever
    the second colour, the gradient orientation and the dimensions. *)
Theorem solid_fill_ignores_second_color (width height : Q)
    (type type' : GradientType) (c1 c2 c2' : string) :
  getFillStyle width height Solid type c1 c2 = FillColor c1
  /\ getFillStyle width height Solid type c1 c2
     = getFillStyle width height Solid type' c1 c2'.
Proof.
  split; reflexivity.
Qed.

(** The second colour does matter in gradient mode. *)
Example gradient_fill_uses_second_color :
  getFillStyle 10 10 Gradient Vertical "#000000" "#a3e635"
  <> getFillStyle 10 10 Gradient Vertical "#000000" "#ffffff".
Proof. discriminate. Qed.

(** ** Logo and error-correction level *)

(** C3: a successful logo upload raises the level to 'H' from 'L' or 'M'
    and leaves 'Q' and 'H' as they are; removing the logo sets 'M'. *)
Theorem logo_error_level_policy (cfg : Config) (result : string) :
  errorLevel (handleLogoUpload (Some (Some result)) cfg)
  = match errorLevel cfg with
    | LevelL | LevelM => LevelH
    | LevelQ => LevelQ
    | LevelH => LevelH
    end
  /\ logo (handleLogoUpload (Some (Some result)) cfg) = Some result
  /\ errorLevel (removeLogo cfg) = LevelM
  /\ logo (removeLogo cfg) = None.
Proof.
  unfold handleLogoUpload, logoReaderOnload, removeLogo.
  destruct (errorLevel cfg) eqn:E; simpl; rewrite ?E; auto.
Qed.

(** ** Content templates *)

(** C4: the WiFi template with a non-empty ssid assembles
    [WIFI:T:<enc>;S:<ssid>;P:<password>;H:<hidden>;;], with [<enc>] empty for
    'nopass' and the encryption name otherwise, and [<hidden>] the literal
    [true] or [false]. *)
Theorem wifi_template (encodeURIComponent : string -> string)
    (t : Templates) (cfg : Config) :
  contentType t = CtWifi ->
  ssid (wifiData t) <> "" ->
  text (templateEffect encodeURIComponent t cfg)
  = "WIFI:T:"
    ++ match encryption (wifiData t) with
       | WPA => "WPA" | WEP => "WEP" | Nopass => ""
       end
    ++ ";S:" ++ ssid (wifiData t)
    ++ ";P:" ++ password (wifiData t)
    ++ ";H:" ++ (if hidden (wifiData t) then "true" else "false")
    ++ ";;".
Proof.
  intros Hct Hssid. unfold templateEffect, templateText. rewrite Hct.
  destruct (ssid (wifiData t)) eqn:E; [contradiction |].
  cbv beta iota zeta delta [truthy]. 
  destruct (encryption (wifiData t)), (hidden (wifiData t)); reflexivity.
Qed.

Lemma wifi_template_witness :
  text (templateEffect (fun s => s) Sample.templates Sample.config)
  = "WIFI:T:WPA;S:Home;P:secret1;H:false;;".
Proof.
  apply (wifi_template (fun s => s) Sample.templates Sample.config).
  - reflexivity.
  - discriminate.
Defined.

(** ** Scan history *)

(** The test of the updater, as a proposition. *)
Lemma historyUpdater_suppresses (newScan : ScanResult) (now : Z)
    (prev0 : ScanResult) (rest : list ScanResult) :
  data prev0 = data newScan ->
  now - timestamp prev0 < 2000 ->
  historyUpdater newScan now (prev0 :: rest) = prev0 :: rest.
Proof.
  intros Hdata Hage. unfold historyUpdater.
  rewrite Hdata, String.eqb_refl.
  apply Z.ltb_lt in Hage. rewrite Hage. reflexivity.
Qed.

Lemma historyUpdater_prepends (newScan : ScanResult) (now : Z)
    (prev : list ScanResult) :
  ~ (exists prev0 rest,
        prev = prev0 :: rest /\ data prev0 = data newScan
        /\ now - timestamp prev0 < 2000) ->
  historyUpdater newScan now prev = newScan :: prev.
Proof.
  intros Hnot. unfold historyUpdater.
  destruct prev as [| prev0 rest]; [reflexivity |].
  destruct (String.eqb_spec (data prev0) (data newScan)) as [Hd | Hd];
    [| reflexivity].
  destruct (Z.ltb_spec (now - timestamp prev0) 2000) as [Hage | Hage];
    [| reflexivity].
  exfalso. apply Hnot. exists prev0, rest. auto.
Qed.

(** C10, as amended: a scan of [d] leaves the history unchanged when its
    top entry has payload [d] and is less than 2000 ms old, and is
    prepended otherwise; and when the first of two consecutive scans of [d]
    is recorded, a second one handled less than 2000 ms after the first's
    timestamp leaves the history as the first left it. *)
Theorem duplicate_scan_suppression (d : string) (image : option string)
    (uuid : string) (created now : Z) (st : AppState) :
  (forall prev0 rest,
      scannedHistory st = prev0 :: rest ->
      data prev0 = d ->
      now - timestamp prev0 < 2000 ->
      scannedHistory (handleScan d image uuid created now st)
      = scannedHistory st)
  /\ (~ (exists prev0 rest,
            scannedHistory st = prev0 :: rest /\ data prev0 = d
            /\ now - timestamp prev0 < 2000) ->
      scannedHistory (handleScan d image uuid created now st)
      = newScanOf d image uuid created :: scannedHistory st)
  /\ (forall (image2 : option string) (uuid2 : string) (created2 now2 : Z),
         scannedHistory (handleScan d image uuid created now st)
         = newScanOf d image uuid created :: scannedHistory st ->
         now2 - created < 2000 ->
         scannedHistory
           (handleScan d image2 uuid2 created2 now2
                       (handleScan d image uuid created now st))
         = scannedHistory (handleScan d image uuid created now st)).
Proof.
  split; [| split].
  - intros prev0 rest Hst Hdata Hage. simpl. rewrite Hst.
    apply historyUpdater_suppresses; assumption.
  - intros Hnot. simpl. apply historyUpdater_prepends. exact Hnot.
  - intros image2 uuid2 created2 now2 Hfirst Hage.
    simpl in Hfirst |- *. rewrite Hfirst.
    apply historyUpdater_suppresses; [reflexivity | exact Hage].
Qed.

Lemma duplicate_scan_suppression_witness :
  scannedHistory (handleScan "x" None "id-1" 1500 1500 Sample.history)
  = scannedHistory Sample.history
  /\ scannedHistory (handleScan "y" None "id-1" 1500 1500 Sample.history)
     = newScanOf "y" None "id-1" 1500 :: scannedHistory Sample.history
  /\ scannedHistory
       (handleScan "y" None "id-2" 3000 3000
                   (handleScan "y" None "id-1" 1500 1500 Sample.history))
     = scannedHistory (handleScan "y" None "id-1" 1500 1500 Sample.history).
Proof.
  split; [| split].
  - apply (proj1 (duplicate_scan_suppression
                    "x" None "id-1" 1500 1500 Sample.history)
                 (newScanOf "x" None "id-0" 0) []);
      [reflexivity | reflexivity | simpl; lia].
  - apply (proj1 (proj2 (duplicate_scan_suppression
                           "y" None "id-1" 1500 1500 Sample.history))).
    intros (prev0 & rest & Hst & Hdata & _).
    injection Hst as <- _. discriminate Hdata.
  - apply (proj2 (proj2 (duplicate_scan_suppression
                           "y" None "id-1" 1500 1500 Sample.history))
                 None "id-2" 3000 3000);
      [reflexivity | lia].
Defined.

(** The claim's last sentence fails when the first of the two scans was
    itself suppressed: with ["x"] recorded at time 0, scans of ["x"] at
    1500 ms and 2500 ms are less than 2 s apart, the first changes nothing,
    and the second is recorded. *)
Lemma two_scans_within_two_seconds_differ :
  2500 - 1500 < 2000
  /\ scannedHistory (handleScan "x" None "id-1" 1500 1500 Sample.history)
     = scannedHistory Sample.history
  /\ scannedHistory
       (handleScan "x" None "id-2" 2500 2500
                   (handleScan "x" None "id-1" 1500 1500 Sample.history))
     <> scannedHistory (handleScan "x" None "id-1" 1500 1500 Sample.history).
Proof.
  split; [lia |]. split; [reflexivity |]. discriminate.
Qed.

(* ================================================================== *)
(** * Further properties of the renderer *)
(* ================================================================== *)

Local Close Scope string_scope.

(** ** Which modules the loop draws *)

Lemma underLogo_spec (logo : option string) (logoStart logoEnd : Z)
    (r c : nat) :
  truthy_opt logo = true ->
  (underLogo logo (Some (logoStart, logoEnd)) r c = true <->
   logoStart <= Z.of_nat r < logoEnd /\ logoStart <= Z.of_nat c < logoEnd).
Proof.
  intros Hlogo. unfold underLogo. rewrite Hlogo. simpl.
  rewrite !andb_true_iff, !Z.ltb_lt, !Z.geb_le. lia.
Qed.

(** X1: with a logo attached, the loop issues no [drawModule] call for an
    index inside the exclusion square [[logoStart, logoEnd)] (in both
    coordinates), whatever the matrix holds there. *)
Theorem no_data_module_under_logo (cfg : Config) (modules : BitMatrix.t)
    (logoStart logoEnd : Z) (r c : nat) :
  truthy_opt (logo cfg) = true ->
  logoBounds (logo cfg) (qrSize cfg) (BitMatrix.size modules)
  = Some (logoStart, logoEnd) ->
  logoStart <= Z.of_nat r < logoEnd ->
  logoStart <= Z.of_nat c < logoEnd ->
  forall d : ModuleDraw,
    In d (dataModuleLoop cfg modules) -> ~ (md_row d = r /\ md_col d = c).
Proof.
  intros Hlogo Hb Hr Hc d Hd [Er Ec].
  apply in_dataModuleLoop in Hd. destruct Hd as (r' & c' & _ & _ & Hd).
  apply in_dataModuleBody in Hd. destruct Hd as (Hunder & _ & _ & ->).
  simpl in Er, Ec. subst r' c'. rewrite Hb in Hunder.
  assert (underLogo (logo cfg) (Some (logoStart, logoEnd)) r c = true)
    by (apply underLogo_spec; auto).
  congruence.
Qed.

Lemma no_data_module_under_logo_witness :
  logoBounds (logo Sample.brokenLogo) (qrSize Sample.brokenLogo)
             (BitMatrix.size Sample.modules) = Some (7, 14)
  /\ (forall d : ModuleDraw,
         In d (dataModuleLoop Sample.brokenLogo Sample.modules) ->
         ~ (md_row d = 10%nat /\ md_col d = 13%nat)).
Proof.
  assert (Hb : logoBounds (logo Sample.brokenLogo) (qrSize Sample.brokenLogo)
                          (BitMatrix.size Sample.modules) = Some (7, 14))
    by (vm_compute; reflexivity).
  split; [exact Hb |].
  apply (no_data_module_under_logo Sample.brokenLogo Sample.modules 7 14 10 13);
    [reflexivity | exact Hb | simpl; lia | simpl; lia].
Defined.

(** X2: a [drawModule] call is issued for index [(r, c)] exactly when the
    index is inside the matrix, the module is on, and the index is neither
    in a finder zone nor under the logo. *)
Theorem data_module_drawn_iff (cfg : Config) (modules : BitMatrix.t)
    (r c : nat) :
  (exists d, In d (dataModuleLoop cfg modules)
             /\ md_row d = r /\ md_col d = c)
  <->
  ((r < BitMatrix.size modules)%nat
   /\ (c < BitMatrix.size modules)%nat
   /\ BitMatrix.get modules r c = true
   /\ isFinderPattern (BitMatrix.size modules) r c = false
   /\ underLogo (logo cfg)
        (logoBounds (logo cfg) (qrSize cfg) (BitMatrix.size modules)) r c
      = false).
Proof.
  split.
  - intros (d & Hd & Er & Ec).
    apply in_dataModuleLoop in Hd. destruct Hd as (r' & c' & Hr & Hc & Hd).
    apply in_dataModuleBody in Hd. destruct Hd as (Hu & Hf & Hg & ->).
    simpl in Er, Ec. subst r' c'. auto.
  - intros (Hr & Hc & Hg & Hf & Hu).
    eexists. split.
    + apply in_dataModuleLoop. exists r, c. split; [exact Hr |].
      split; [exact Hc |]. apply in_dataModuleBody.
      repeat split; eassumption.
    + split; reflexivity.
Qed.





(** ** The quiet zone *)

Lemma cellSize_nonneg (size : Q) (moduleCount : nat) :
  (0 <= size)%Q -> (0 <= cellSize size moduleCount)%Q.
Proof.
  intros Hs. unfold cellSize. apply Qle_shift_div_l.
  - unfold Qlt, margin; simpl. lia.
  - rewrite Qmult_0_l. exact Hs.
Qed.

(** The grid of [moduleCount] cells starting at [offset] ends at
    [size - offset]. *)
Lemma grid_end (size : Q) (moduleCount : nat) :
  (offset size moduleCount
   + inject_Z (Z.of_nat moduleCount) * cellSize size moduleCount
   == size - offset size moduleCount)%Q.
Proof.
  pose proof (cellSize_mult size moduleCount) as H.
  unfold offset. rewrite inject_Z_plus in H. unfold margin in *.
  set (cs := cellSize size moduleCount) in *. rewrite <- H.
  change (inject_Z (2 * 2)) with 4%Q. change (inject_Z 2) with 2%Q. ring.
Qed.

Lemma cell_inside_grid (size : Q) (moduleCount i : nat) :
  (0 <= size)%Q -> (i < moduleCount)%nat ->
  (offset size moduleCount
   <= offset size moduleCount + inject_Z (Z.of_nat i) * cellSize size moduleCount
   /\ offset size moduleCount
      + inject_Z (Z.of_nat i) * cellSize size moduleCount
      + cellSize size moduleCount
      <= size - offset size moduleCount)%Q.
Proof.
  intros Hs Hi.
  pose proof (cellSize_nonneg size moduleCount Hs) as Hc.
  rewrite <- grid_end.
  assert (Hi0 : (0 <= inject_Z (Z.of_nat i))%Q)
    by (change 0%Q with (inject_Z 0); rewrite <- Zle_Qle; lia).
  assert (Hi1 : (inject_Z (Z.of_nat i) + 1 <= inject_Z (Z.of_nat moduleCount))%Q).
  { change 1%Q with (inject_Z 1). rewrite <- inject_Z_plus, <- Zle_Qle. lia. }
  pose proof (Qmult_le_0_compat _ _ Hi0 Hc) as P0.
  assert (P1 : (0 <= (inject_Z (Z.of_nat moduleCount)
                      - (inject_Z (Z.of_nat i) + 1))
                     * cellSize size moduleCount)%Q).
  { apply Qmult_le_0_compat; [lra | exact Hc]. }
  split; lra.
Qed.

(** X4: for a non-negative output size every drawn module cell lies
    inside the code area, which leaves a margin of [offset] (two cells) on
    each side: horizontally within [[offset, size - offset]], vertically
    within the same interval shifted by [qrOffsetY]. *)
Theorem data_modules_respect_quiet_zone (cfg : Config)
    (modules : BitMatrix.t) (d : ModuleDraw) :
  (0 <= qrSize cfg)%Q ->
  In d (dataModuleLoop cfg modules) ->
  let off := offset (qrSize cfg) (BitMatrix.size modules) in
  let shift :=
    qrOffsetY (labelText cfg) (labelPosition cfg) (labelSize cfg)
              (qrSize cfg) in
  (off <= md_x d /\ md_x d + md_size d <= qrSize cfg - off
   /\ shift + off <= md_y d
   /\ md_y d + md_size d <= shift + (qrSize cfg - off))%Q.
Proof.
  intros Hs Hd off shift.
  apply in_dataModuleLoop in Hd. destruct Hd as (r & c & Hr & Hc & Hd).
  apply in_dataModuleBody in Hd. destruct Hd as (_ & _ & _ & ->).
  cbn [md_x md_y md_size].
  destruct (cell_inside_grid (qrSize cfg) (BitMatrix.size modules) c Hs Hc)
    as [Hx0 Hx1].
  destruct (cell_inside_grid (qrSize cfg) (BitMatrix.size modules) r Hs Hr)
    as [Hy0 Hy1].
  subst off shift. repeat split; lra.
Qed.

Lemma data_modules_respect_quiet_zone_witness :
  (offset 1000 21 <= offset 1000 21 + inject_Z 20 * cellSize 1000 21
   /\ offset 1000 21 + inject_Z 20 * cellSize 1000 21 + cellSize 1000 21
      <= 1000 - offset 1000 21)%Q.
Proof.
  assert (Hin : In {| md_row := 8; md_col := 20;
                      md_x := (offset 1000 21
                               + inject_Z 20 * cellSize 1000 21)%Q;
                      md_y := (qrOffsetY EmptyString Bottom 60 1000
                               + offset 1000 21
                               + inject_Z 8 * cellSize 1000 21)%Q;
                      md_size := cellSize 1000 21;
                      md_style := DotSquare |}
                   (dataModuleLoop Sample.config Sample.modules)).
  { apply in_dataModuleLoop. exists 8%nat, 20%nat.
    split; [simpl; lia |]. split; [simpl; lia |].
    apply in_dataModuleBody. repeat split. }
  assert (Hs : (0 <= qrSize Sample.config)%Q) by (unfold Qle; simpl; lia).
  destruct (data_modules_respect_quiet_zone
              Sample.config Sample.modules _ Hs Hin) as (H1 & H2 & _).
  split; [exact H1 | exact H2].
Defined.

(** ** The logo exclusion square *)

(** [Math.ceil] of the ratio, between integer bounds. *)
Lemma logoModuleSize_bounds (size : Q) (moduleCount : nat) :
  ~ (size == 0)%Q ->
  Z.of_nat moduleCount + 4 <= 4 * logoModuleSize size moduleCount
  /\ 4 * logoModuleSize size moduleCount < Z.of_nat moduleCount + 8.
Proof.
  intros Hs. unfold logoModuleSize.
  pose proof (logo_ratio size moduleCount Hs) as Hr.
  set (x := ((size * logoScale) / cellSize size moduleCount)%Q) in *.
  pose proof (Qle_ceiling x) as Hle.
  pose proof (Qceiling_lt x) as Hlt.
  set (z := Qceiling x) in *. clearbody z.
  assert (Hq : (logoScale == 1 # 4)%Q) by reflexivity.
  rewrite Hq in Hr. clear Hq.
  set (n := Z.of_nat moduleCount + margin * 2) in *.
  assert (Hn : n = Z.of_nat moduleCount + 4) by reflexivity.
  clearbody n.
  assert (Hle' : ((1 # 4) * inject_Z n <= inject_Z z)%Q) by lra.
  assert (Hlt' : (inject_Z (z - 1) < (1 # 4) * inject_Z n)%Q) by lra.
  clear Hle Hlt Hr. clearbody x.
  unfold Qle, Qmult, inject_Z in Hle'. unfold Qlt, Qmult, inject_Z in Hlt'.
  cbn [Qnum Qden Pos.mul] in Hle', Hlt'. lia.
Qed.

Lemma adjustedSize_bounds (size : Q) (moduleCount : nat) :
  ~ (size == 0)%Q ->
  Z.of_nat moduleCount + 4 <= 4 * adjustedSize size moduleCount
  /\ 4 * adjustedSize size moduleCount < Z.of_nat moduleCount + 12.
Proof.
  intros Hs. pose proof (logoModuleSize_bounds size moduleCount Hs) as H.
  unfold adjustedSize.
  destruct (Z.rem (logoModuleSize size moduleCount) 2 =? 0); lia.
Qed.

(** X5: the exclusion square does not depend on the output resolution:
    any two non-zero sizes give the same [logoStart] and [logoEnd]. *)
Theorem logo_exclusion_independent_of_size (logo : option string)
    (size1 size2 : Q) (moduleCount : nat) :
  ~ (size1 == 0)%Q -> ~ (size2 == 0)%Q ->
  logoBounds logo size1 moduleCount = logoBounds logo size2 moduleCount.
Proof.
  intros H1 H2.
  assert (Hl : logoModuleSize size1 moduleCount
               = logoModuleSize size2 moduleCount).
  { unfold logoModuleSize. apply Qceiling_comp.
    rewrite (logo_ratio size1 moduleCount H1).
    rewrite (logo_ratio size2 moduleCount H2). reflexivity. }
  unfold logoBounds, adjustedSize. rewrite Hl.
  destruct (truthy_opt logo); [| reflexivity].
  destruct (Qeq_bool (cellSize size1 moduleCount) 0) eqn:E1.
  { apply Qeq_bool_iff, cellSize_zero_iff in E1. contradiction. }
  destruct (Qeq_bool (cellSize size2 moduleCount) 0) eqn:E2.
  { apply Qeq_bool_iff, cellSize_zero_iff in E2. contradiction. }
  reflexivity.
Qed.

Lemma logo_exclusion_independent_of_size_witness :
  logoBounds (Some "x"%string) 500 21 = logoBounds (Some "x"%string) 2000 21.
Proof.
  apply (logo_exclusion_independent_of_size (Some "x"%string) 500 2000 21);
    unfold Qeq; simpl; lia.
Defined.

(** X6: for an odd module count of at least 21 (every QR version) the
    exclusion square stays inside the matrix and clear of the rows and
    columns of the three finder zones: [7 <= logoStart] and
    [logoEnd <= N - 7]. *)
Theorem logo_exclusion_clear_of_finder_zones (logo : option string)
    (size : Q) (moduleCount : nat) :
  truthy_opt logo = true ->
  Z.odd (Z.of_nat moduleCount) = true ->
  21 <= Z.of_nat moduleCount ->
  ~ (size == 0)%Q ->
  exists logoStart logoEnd : Z,
    logoBounds logo size moduleCount = Some (logoStart, logoEnd)
    /\ 7 <= logoStart /\ logoStart < logoEnd
    /\ logoEnd <= Z.of_nat moduleCount - 7.
Proof.
  intros Hlogo Hodd Hmin Hsize.
  apply Z.odd_spec in Hodd. destruct Hodd as [m Hm].
  pose proof (adjustedSize_odd size moduleCount) as Ha.
  apply Z.odd_spec in Ha. destruct Ha as [k Hk].
  pose proof (adjustedSize_bounds size moduleCount Hsize) as Hb.
  exists (m - k), (m + k + 1).
  split; [apply logoBounds_closed_form; assumption |].
  lia.
Qed.

Lemma logo_exclusion_clear_of_finder_zones_witness :
  exists logoStart logoEnd : Z,
    logoBounds (Some "x"%string) 1000 25 = Some (logoStart, logoEnd)
    /\ 7 <= logoStart /\ logoStart < logoEnd
    /\ logoEnd <= Z.of_nat 25 - 7.
Proof.
  apply (logo_exclusion_clear_of_finder_zones (Some "x"%string) 1000 25).
  - reflexivity.
  - reflexivity.
  - simpl; lia.
  - unfold Qeq; simpl; lia.
Defined.

(** The logo's pixel square against the pixel bounds of the exclusion
    square [[m - k, m + k + 1)], in one coordinate. *)
Lemma logo_pixels_inside (size : Q) (moduleCount : nat) (m k : Z) :
  (0 < size)%Q ->
  Z.of_nat moduleCount = 2 * m + 1 ->
  2 * m + 1 <= 8 * k ->
  let cs := cellSize size moduleCount in
  let off := offset size moduleCount in
  let logoSizePx := (size * logoScale)%Q in
  let logoX := ((size - logoSizePx) / 2)%Q in
  (logoX + logoSizePx / 2 == size / 2
   /\ off + inject_Z (m - k) * cs <= logoX
   /\ logoX + logoSizePx <= off + inject_Z (m + k + 1) * cs)%Q.
Proof.
  intros Hs Hm Hk cs off logoSizePx logoX.
  pose proof (cellSize_mult size moduleCount) as Hc. fold cs in Hc.
  assert (Hcs : (0 <= cs)%Q) by (apply cellSize_nonneg; lra).
  assert (Hq : (logoScale == 1 # 4)%Q) by reflexivity.
  subst logoX logoSizePx off. unfold offset. fold cs. clearbody cs.
  rewrite Hq. clear Hq.
  unfold margin in *. rewrite Hm in Hc.
  replace (2 * m + 1 + 2 * 2) with (2 * m + 5) in Hc by lia.
  unfold Z.sub.
  rewrite !inject_Z_plus, ?inject_Z_opp.
  rewrite !inject_Z_plus, !inject_Z_mult in Hc.
  change (inject_Z 2) with 2%Q in *. change (inject_Z 5) with 5%Q in *.
  change (inject_Z 1) with 1%Q in *.
  assert (HK : (2 * inject_Z m + 1 <= 8 * inject_Z k)%Q).
  { change 2%Q with (inject_Z 2). change 1%Q with (inject_Z 1).
    change 8%Q with (inject_Z 8).
    rewrite <- !inject_Z_mult, <- inject_Z_plus, <- Zle_Qle. exact Hk. }
  set (M := inject_Z m) in *. set (K := inject_Z k) in *.
  clearbody M K.
  assert (P : (0 <= (8 * K - (2 * M + 1)) * cs)%Q)
    by (apply Qmult_le_0_compat; lra).
  unfold Qdiv. change (/ 2)%Q with (1 # 2)%Q.
  repeat split; lra.
Qed.

(** X7: when the logo loads (odd module count, positive output size) the
    rendering draws the image as a square centred on the code, and that
    square lies within the pixel bounds of the exclusion square, so the
    logo never covers a drawn data module. *)
Theorem logo_image_centered_in_exclusion_zone
    (QRCode_create : string -> ErrorLevel -> Exn + BitMatrix.t)
    (toDataURL : Canvas -> string) (imageLoads : string -> bool)
    (rejects : bool) (cfg : Config) (w : World) (modules : BitMatrix.t)
    (cv : Canvas) (src : string) :
  truthy (text cfg) = true ->
  QRCode_create (text cfg) (errorLevel cfg) = inr modules ->
  canvasRef w = Some cv ->
  context2d cv = true ->
  logo cfg = Some src ->
  truthy src = true ->
  imageLoads src = true ->
  Z.odd (Z.of_nat (BitMatrix.size modules)) = true ->
  (0 < qrSize cfg)%Q ->
  let size := qrSize cfg in
  let cs := cellSize size (BitMatrix.size modules) in
  let off := offset size (BitMatrix.size modules) in
  let shift :=
    qrOffsetY (labelText cfg) (labelPosition cfg) (labelSize cfg) size in
  exists (cv' : Canvas) (logoStart logoEnd : Z) (dx dy dw : Q),
    canvasRef
      (run (generateQR QRCode_create toDataURL imageLoads rejects cfg) w)
    = Some cv'
    /\ In (Ctx.drawImage src dx dy dw dw) (ops cv')
    /\ logoBounds (logo cfg) size (BitMatrix.size modules)
       = Some (logoStart, logoEnd)
    /\ (dx + dw / 2 == size / 2
        /\ dy + dw / 2 == shift + size / 2
        /\ off + inject_Z logoStart * cs <= dx
        /\ dx + dw <= off + inject_Z logoEnd * cs
        /\ shift + off + inject_Z logoStart * cs <= dy
        /\ dy + dw <= shift + off + inject_Z logoEnd * cs)%Q.
Proof.
  intros Htext Hqr Hcv Hctx Hlogo Hsrc Himg Hodd Hpos size cs off shift.
  assert (Hnz : ~ (size == 0)%Q) by (subst size; lra).
  apply Z.odd_spec in Hodd. destruct Hodd as [m Hm].
  pose proof (adjustedSize_odd size (BitMatrix.size modules)) as Ha.
  apply Z.odd_spec in Ha. destruct Ha as [k Hk].
  pose proof (adjustedSize_bounds size (BitMatrix.size modules) Hnz) as Hb.
  assert (Hmk : 2 * m + 1 <= 8 * k) by lia.
  destruct (logo_pixels_inside size (BitMatrix.size modules) m k
              Hpos Hm Hmk) as (Hmid & Hlo & Hhi).
  fold cs off in Hmid, Hlo, Hhi.
  eexists. exists (m - k), (m + k + 1). do 3 eexists.
  split.
  { unfold run.
    rewrite (generateQR_logo_loaded QRCode_create toDataURL imageLoads
               rejects cfg w modules cv src) by assumption.
    reflexivity. }
  split.
  { cbn [ops canvasWith]. apply in_or_app. right.
    apply in_or_app. right. left. reflexivity. }
  split.
  { apply logoBounds_closed_form; try assumption.
    rewrite Hlogo. exact Hsrc. }
  fold size shift.
  unfold Qdiv in *. change (/ 2)%Q with (1 # 2)%Q in *.
  repeat split; lra.
Qed.

Lemma logo_image_centered_in_exclusion_zone_witness :
  exists (cv' : Canvas) (logoStart logoEnd : Z) (dx dy dw : Q),
    canvasRef
      (run (generateQR Sample.QRCode_create Sample.toDataURL
                       (fun _ => true) true Sample.brokenLogo)
           Sample.world)
    = Some cv'
    /\ In (Ctx.drawImage Sample.notAnImage dx dy dw dw) (ops cv')
    /\ logoBounds (logo Sample.brokenLogo) 1000 21
       = Some (logoStart, logoEnd)
    /\ (dx + dw / 2 == 1000 / 2)%Q.
Proof.
  assert (Hpos : (0 < qrSize Sample.brokenLogo)%Q)
    by (unfold Qlt; simpl; lia).
  destruct (logo_image_centered_in_exclusion_zone
              Sample.QRCode_create Sample.toDataURL (fun _ => true) true
              Sample.brokenLogo Sample.world Sample.modules Sample.canvas
              Sample.notAnImage
              eq_refl eq_refl eq_refl eq_refl eq_refl eq_refl eq_refl
              eq_refl Hpos)
    as (cv' & s & e & dx & dy & dw & Hcv & Hin & Hb & Hmid & _).
  exists cv', s, e, dx, dy, dw. auto.
Defined.

(** ** Shapes *)

Lemma roundRectPath_path (x y w h r : Q) :
  forallb isPathOp (roundRectPath x y w h r) = true.
Proof. reflexivity. Qed.

(** X8: [drawModule] only builds a path and fills it once with the default
    rule: it is a list of path operations followed by [fill] and
    [closePath]; it never touches the fill style, the clip or the saved
    state. *)
Theorem drawModule_builds_and_fills_once (x y size : Q) (style : DotStyle) :
  exists path,
    drawModule x y size style = path ++ [Ctx.fill; Ctx.closePath]
    /\ forallb isPathOp path = true.
Proof.
  unfold drawModule.
  eexists. split.
  - rewrite app_assoc. reflexivity.
  - destruct style; reflexivity.
Qed.


(** ** Outcomes of [generateQR] *)

Section RendererOutcomes.

Variable QRCode_create : string -> ErrorLevel -> Exn + BitMatrix.t.
Variable toDataURL : Canvas -> string.
Variable imageLoads : string -> bool.
Variable rejects : bool.

Ltac eval_effects :=
  cbv beta iota zeta
      delta [bind ret when throw return_ emit updateCanvas
             canvasRef_current setGeneratedBase64
             drawLogo awaitImage ctx_drawImage
             canvasRef generatedBase64 console option_map fst snd].

(** The [try] body never logs; it sets the output only as its last step,
    from the canvas, and then completes normally. *)
Lemma compose_outcome (cfg : Config) (w : World) :
  let r := compose QRCode_create toDataURL imageLoads rejects cfg w in
  console (snd r) = console w
  /\ match fst r with
     | Normal _ =>
         exists cv', canvasRef (snd r) = Some cv'
                     /\ generatedBase64 (snd r) = toDataURL cv'
     | Return => generatedBase64 (snd r) = generatedBase64 w
     | Throw _ => generatedBase64 (snd r) = generatedBase64 w
     end.
Proof.
  cbv zeta.
  destruct (QRCode_create (text cfg) (errorLevel cfg)) as [e | modules] eqn:Hqr.
  { unfold compose, createQR. rewrite Hqr. split; reflexivity. }
  destruct w as [gb [cv |] con].
  2:{ unfold compose, createQR. rewrite Hqr. split; reflexivity. }
  destruct cv as [cw ch [|] cops].
  2:{ unfold compose, createQR. rewrite Hqr. split; reflexivity. }
  rewrite (compose_unfold QRCode_create toDataURL imageLoads rejects cfg
             {| generatedBase64 := gb;
                canvasRef := Some {| width := cw; height := ch;
                                     context2d := true; ops := cops |};
                console := con |}
             modules
             {| width := cw; height := ch; context2d := true; ops := cops |}
             Hqr eq_refl eq_refl).
  destruct (logo cfg) as [src |].
  - destruct (truthy src), (imageLoads src) eqn:Himg, rejects,
             (truthy (labelText cfg));
      eval_effects; rewrite ?Himg; cbv beta iota;
      (split; [reflexivity | first [reflexivity | eexists; split; reflexivity]]).
  - destruct (truthy (labelText cfg)); eval_effects;
      (split; [reflexivity | eexists; split; reflexivity]).
Qed.

(** X10: whatever the configuration, the platform and the state,
    [generateQR] never lets an exception escape, and it ends in one of two
    ways: either it has set the output to [toDataURL] of the canvas and
    logged nothing, or it has left the output as it was (or cleared it,
    for empty content) and logged at most one "QR Generation failed". *)
Theorem generateQR_outcomes (cfg : Config) (w : World) :
  let r := generateQR QRCode_create toDataURL imageLoads rejects cfg w in
  (fst r = Normal tt \/ fst r = Return)
  /\ ((exists cv', canvasRef (snd r) = Some cv'
                   /\ generatedBase64 (snd r) = toDataURL cv'
                   /\ console (snd r) = console w)
      \/ ((generatedBase64 (snd r) = generatedBase64 w
           \/ (text cfg = EmptyString
               /\ generatedBase64 (snd r) = EmptyString))
          /\ (console (snd r) = console w
              \/ exists e,
                   console (snd r)
                   = console w
                     ++ [("QR Generation failed"%string, e)]))).
Proof.
  cbv zeta. unfold generateQR.
  destruct (text cfg) as [| a t] eqn:Htext; cbv beta iota delta [truthy negb].
  - simpl. split; [right; reflexivity |].
    right. split; [right; split; reflexivity | left; reflexivity].
  - pose proof (compose_outcome cfg w) as Hc. cbv zeta in Hc.
    unfold tryCatch.
    destruct (compose QRCode_create toDataURL imageLoads rejects cfg w)
      as [[[] | | e] w']; simpl in Hc |- *; destruct Hc as [Hcon Hout].
    + split; [left; reflexivity |]. left.
      destruct Hout as (cv' & H1 & H2). exists cv'. auto.
    + split; [right; reflexivity |]. right.
      split; [left; exact Hout | left; exact Hcon].
    + split; [left; reflexivity |]. right.
      split; [left; exact Hout |]. right. exists e. rewrite Hcon.
      reflexivity.
Qed.

(** X11: when the QR library rejects the content (for instance because it
    is too long for the level), the exception is logged as it was thrown,
    the canvas is not touched and the output keeps its previous value. *)
Theorem generateQR_library_failure (cfg : Config) (w : World) (e : Exn) :
  truthy (text cfg) = true ->
  QRCode_create (text cfg) (errorLevel cfg) = inl e ->
  generateQR QRCode_create toDataURL imageLoads rejects cfg w
  = (Normal tt,
     {| generatedBase64 := generatedBase64 w;
        canvasRef := canvasRef w;
        console := console w ++ [("QR Generation failed"%string, e)] |}).
Proof.
  intros Htext Hqr. unfold generateQR. rewrite Htext.
  unfold tryCatch, compose, createQR. rewrite Hqr. reflexivity.
Qed.

(** X12: without a mounted canvas, or without a 2D context, nothing is
    painted, nothing is logged and the output keeps its value; in the
    second case the canvas has already been resized and cleared. *)
Theorem generateQR_without_canvas (cfg : Config) (w : World)
    (modules : BitMatrix.t) :
  truthy (text cfg) = true ->
  QRCode_create (text cfg) (errorLevel cfg) = inr modules ->
  (canvasRef w = None ->
   generateQR QRCode_create toDataURL imageLoads rejects cfg w
   = (Return, w))
  /\ (forall cv,
         canvasRef w = Some cv -> context2d cv = false ->
         generateQR QRCode_create toDataURL imageLoads rejects cfg w
         = (Return,
            {| generatedBase64 := generatedBase64 w;
               canvasRef :=
                 Some {| width := totalWidth (qrSize cfg);
                         height := totalHeight (labelText cfg)
                                     (labelSize cfg) (qrSize cfg);
                         context2d := false;
                         ops := [] |};
               console := console w |})).
Proof.
  intros Htext Hqr. split.
  - intros Hcv. unfold generateQR. rewrite Htext.
    unfold tryCatch, compose, createQR. rewrite Hqr.
    destruct w as [gb cref con]. simpl in Hcv. subst cref. reflexivity.
  - intros cv Hcv Hctx. unfold generateQR. rewrite Htext.
    unfold tryCatch, compose, createQR. rewrite Hqr.
    destruct w as [gb cref con]. simpl in Hcv. subst cref.
    destruct cv as [cw ch c2 cops]. simpl in Hctx. subst c2. reflexivity.
Qed.

End RendererOutcomes.

Lemma generateQR_library_failure_witness :
  generateQR (fun _ _ => inl (QRCodeError "The amount of data is too big"%string))
             Sample.toDataURL Sample.imageLoads true
             Sample.config Sample.world
  = (Normal tt,
     {| generatedBase64 := generatedBase64 Sample.world;
        canvasRef := canvasRef Sample.world;
        console :=
          console Sample.world
          ++ [("QR Generation failed"%string,
               QRCodeError "The amount of data is too big"%string)] |}).
Proof.
  apply (generateQR_library_failure
           (fun _ _ => inl (QRCodeError "The amount of data is too big"%string))
           Sample.toDataURL Sample.imageLoads true
           Sample.config Sample.world);
    reflexivity.
Defined.

Lemma generateQR_without_canvas_witness :
  generateQR Sample.QRCode_create Sample.toDataURL Sample.imageLoads true
             Sample.config
             {| generatedBase64 := "earlier"%string; canvasRef := None;
                console := [] |}
  = (Return,
     {| generatedBase64 := "earlier"%string; canvasRef := None;
        console := [] |}).
Proof.
  apply (proj1 (generateQR_without_canvas
                  Sample.QRCode_create Sample.toDataURL Sample.imageLoads
                  true Sample.config
                  {| generatedBase64 := "earlier"%string; canvasRef := None;
                     console := [] |}
                  Sample.modules eq_refl eq_refl)).
  reflexivity.
Defined.



(** ** The label *)

(** X14: a configured label is written centred on the canvas width and on
    the middle line of its band.  For ['top'] the band is [[0, band]] and
    the code starts right below it, ending at the canvas bottom; for
    ['bottom'] the code starts at 0 and the band is [[size, totalHeight]]. *)
Theorem label_centered_in_band (cfg : Config) :
  truthy (labelText cfg) = true ->
  let size := qrSize cfg in
  let band := extraHeight (labelText cfg) (labelSize cfg) size in
  let shift :=
    qrOffsetY (labelText cfg) (labelPosition cfg) (labelSize cfg) size in
  let H := totalHeight (labelText cfg) (labelSize cfg) size in
  exists tx ty : Q,
    In (Ctx.fillText (labelText cfg) tx ty) (labelOps cfg)
    /\ (tx + tx == totalWidth size)%Q
    /\ match labelPosition cfg with
       | Top => (shift == band /\ ty + ty == band /\ shift + size == H)%Q
       | Bottom => (shift == 0 /\ ty + ty == size + H)%Q
       end.
Proof.
  intros Hl size band shift H.
  unfold labelOps. rewrite Hl. unfold drawLabel.
  do 2 eexists. split; [do 4 right; left; reflexivity |].
  fold size band. subst shift H. unfold qrOffsetY, totalHeight, totalWidth.
  rewrite Hl. fold size band.
  split; [field |].
  destruct (labelPosition cfg); repeat split; try reflexivity; field.
Qed.

Lemma label_centered_in_band_witness :
  exists tx ty : Q,
    In (Ctx.fillText "Scan me"%string tx ty) (labelOps Sample.labelled)
    /\ (tx + tx == 1000)%Q
    /\ (ty + ty == extraHeight "Scan me"%string 60 1000)%Q.
Proof.
  destruct (label_centered_in_band Sample.labelled eq_refl)
    as (tx & ty & Hin & Hx & _ & Hy & _).
  exists tx, ty. auto.
Defined.

(** ** More on the content templates *)

Local Open Scope string_scope.

Lemma append_assoc (a b c : string) : (a ++ b) ++ c = a ++ b ++ c.
Proof.
  induction a as [| x a IH]; simpl; [reflexivity | rewrite IH; reflexivity].
Qed.

(** X15: the e-mail template with a non-empty address assembles
    [mailto:<address>?subject=<s>&body=<b>], where [<s>] and [<b>] are the
    subject and body passed through [encodeURIComponent]; the address
    itself is not encoded. *)
Theorem email_template (encodeURIComponent : string -> string)
    (t : Templates) (cfg : Config) :
  contentType t = CtEmail ->
  email (emailData t) <> "" ->
  text (templateEffect encodeURIComponent t cfg)
  = "mailto:" ++ email (emailData t)
    ++ "?subject=" ++ encodeURIComponent (subject (emailData t))
    ++ "&body=" ++ encodeURIComponent (body (emailData t)).
Proof.
  intros Hct Hemail. unfold templateEffect, templateText. rewrite Hct.
  destruct (email (emailData t)) eqn:E; [contradiction |]. reflexivity.
Qed.

Lemma email_template_witness :
  text (templateEffect (fun s => s)
          {| contentType := CtEmail; urlValue := "";
             wifiData := Sample.wifi;
             emailData := {| email := "a@b.com"; subject := "Hi";
                             body := "Yo" |};
             vcardData := vcardData Sample.templates |}
          Sample.config)
  = "mailto:a@b.com?subject=Hi&body=Yo".
Proof.
  apply (email_template (fun s => s)
           {| contentType := CtEmail; urlValue := "";
              wifiData := Sample.wifi;
              emailData := {| email := "a@b.com"; subject := "Hi";
                              body := "Yo" |};
              vcardData := vcardData Sample.templates |}
           Sample.config).
  - reflexivity.
  - discriminate.
Defined.

(** X16: the contact template produces a card only when one of first
    name, last name, e-mail or phone is filled in: organisation, title and
    URL alone give the empty string.  A card starts with [BEGIN:VCARD] and
    [VERSION:3.0] and ends with [END:VCARD]. *)
Theorem vcard_template (encodeURIComponent : string -> string)
    (t : Templates) (cfg : Config) :
  contentType t = CtVcard ->
  let v := vcardData t in
  (firstName v = "" -> lastName v = "" -> vcardEmail v = "" ->
   phone v = "" ->
   text (templateEffect encodeURIComponent t cfg) = "")
  /\ (firstName v <> "" \/ lastName v <> "" \/ vcardEmail v <> ""
      \/ phone v <> "" ->
      exists fields,
        text (templateEffect encodeURIComponent t cfg)
        = "BEGIN:VCARD" ++ LF ++ "VERSION:3.0" ++ LF ++ fields
          ++ "END:VCARD").
Proof.
  intros Hct v. unfold templateEffect, templateText. rewrite Hct.
  fold v. split.
  - intros -> -> -> ->. reflexivity.
  - intros Hsome.
    assert (Hb : truthy (firstName v) || truthy (lastName v)
                 || truthy (vcardEmail v) || truthy (phone v) = true).
    { destruct (firstName v), (lastName v), (vcardEmail v), (phone v);
        try reflexivity.
      destruct Hsome as [H | [H | [H | H]]]; contradiction. }
    rewrite Hb. cbn [text setText].
    exists ("N:" ++ lastName v ++ ";" ++ firstName v ++ ";;;" ++ LF
            ++ "FN:" ++ firstName v ++ " " ++ lastName v ++ LF
            ++ "ORG:" ++ org v ++ LF
            ++ "TITLE:" ++ title v ++ LF
            ++ "TEL:" ++ phone v ++ LF
            ++ "EMAIL:" ++ vcardEmail v ++ LF
            ++ "URL:" ++ url v ++ LF).
    rewrite !append_assoc. reflexivity.
Qed.

Lemma vcard_template_witness :
  text (templateEffect (fun s => s)
          {| contentType := CtVcard; urlValue := "";
             wifiData := Sample.wifi;
             emailData := emailData Sample.templates;
             vcardData := {| firstName := ""; lastName := ""; phone := "";
                             vcardEmail := ""; org := "ACME";
                             title := "CEO"; url := "https://acme.test" |} |}
          Sample.config)
  = "".
Proof.
  apply (proj1 (vcard_template (fun s => s)
                  {| contentType := CtVcard; urlValue := "";
                     wifiData := Sample.wifi;
                     emailData := emailData Sample.templates;
                     vcardData :=
                       {| firstName := ""; lastName := ""; phone := "";
                          vcardEmail := ""; org := "ACME";
                          title := "CEO"; url := "https://acme.test" |} |}
                  Sample.config eq_refl));
    reflexivity.
Defined.

(** X17: a template that is selected but not filled in (no ssid, no
    address, no URL) sets the content to the empty string, and the
    renderer then clears the output and paints nothing. *)
Theorem unfilled_template_clears_output
    (QRCode_create : string -> ErrorLevel -> Exn + BitMatrix.t)
    (toDataURL : Canvas -> string) (imageLoads : string -> bool)
    (rejects : bool) (encodeURIComponent : string -> string)
    (t : Templates) (cfg : Config) (w : World) :
  (contentType t = CtWifi /\ ssid (wifiData t) = "")
  \/ (contentType t = CtEmail /\ email (emailData t) = "")
  \/ (contentType t = CtUrl /\ urlValue t = "") ->
  text (templateEffect encodeURIComponent t cfg) = ""
  /\ generateQR QRCode_create toDataURL imageLoads rejects
                (templateEffect encodeURIComponent t cfg) w
     = (Return,
        {| generatedBase64 := "";
           canvasRef := canvasRef w;
           console := console w |}).
Proof.
  intros Hcase.
  assert (Htext : text (templateEffect encodeURIComponent t cfg) = "").
  { unfold templateEffect, templateText.
    destruct Hcase as [[-> ->] | [[-> ->] | [-> ->]]]; reflexivity. }
  split; [exact Htext |].
  unfold generateQR. rewrite Htext. reflexivity.
Qed.

Lemma unfilled_template_clears_output_witness :
  text (templateEffect (fun s => s)
          {| contentType := CtEmail; urlValue := "";
             wifiData := Sample.wifi;
             emailData := emailData Sample.templates;
             vcardData := vcardData Sample.templates |}
          Sample.config) = ""
  /\ generateQR Sample.QRCode_create Sample.toDataURL Sample.imageLoads true
                (templateEffect (fun s => s)
                   {| contentType := CtEmail; urlValue := "";
                      wifiData := Sample.wifi;
                      emailData := emailData Sample.templates;
                      vcardData := vcardData Sample.templates |}
                   Sample.config)
                Sample.world
     = (Return,
        {| generatedBase64 := "";
           canvasRef := canvasRef Sample.world;
           console := console Sample.world |}).
Proof.
  apply (unfilled_template_clears_output
           Sample.QRCode_create Sample.toDataURL Sample.imageLoads true
           (fun s => s)
           {| contentType := CtEmail; urlValue := "";
              wifiData := Sample.wifi;
              emailData := emailData Sample.templates;
              vcardData := vcardData Sample.templates |}
           Sample.config Sample.world).
  right; left. split; reflexivity.
Defined.

(** ** Reading a WiFi code back *)

Lemma takeUntilSemicolon_field (v rest : string) :
  hasChar ";" v = false ->
  takeUntilSemicolon (v ++ String ";" rest) = v.
Proof.
  induction v as [| a v IH]; simpl; intros H; [reflexivity |].
  apply orb_false_iff in H. destruct H as [Ha Hv].
  rewrite Ha, (IH Hv). reflexivity.
Qed.

(** A run of characters without a colon holds no [K:] and is skipped,
    provided no colon follows it directly. *)
Lemma matchField_skip (key : ascii) (v rest : string) :
  hasChar ":" v = false ->
  match rest with String c _ => Ascii.eqb c ":" = false | EmptyString => True end ->
  matchField key (v ++ rest) = matchField key rest.
Proof.
  intros Hv Hrest. induction v as [| a v IH]; [reflexivity |].
  simpl in Hv. apply orb_false_iff in Hv. destruct Hv as [_ Hv].
  specialize (IH Hv). cbn [append matchField]. rewrite IH.
  destruct (Ascii.eqb a key); [| reflexivity].
  destruct v as [| b v]; cbn [append].
  - destruct rest as [| c rest]; [reflexivity | rewrite Hrest; reflexivity].
  - simpl in Hv. apply orb_false_iff in Hv. destruct Hv as [Hb _].
    rewrite Hb. reflexivity.
Qed.

(** The three fields read back from the WiFi string. *)
Lemma wifi_fields_read_back (enc : Encryption) (ssid password : string)
    (hidden : bool) :
  ssid <> "" ->
  hasChar ";" ssid = false -> hasChar ":" ssid = false ->
  hasChar ";" password = false -> hasChar ":" password = false ->
  let s :=
    "WIFI:T:"
    ++ match enc with WPA => "WPA" | WEP => "WEP" | Nopass => "" end
    ++ ";S:" ++ ssid ++ ";P:" ++ password
    ++ ";H:" ++ (if hidden then "true" else "false") ++ ";;" in
  orDefault (matchField "S" s) "Unknown Network" = ssid
  /\ orDefault (matchField "P" s) "" = password
  /\ orDefault (matchField "T" s) "None"
     = match enc with WPA => "WPA" | WEP => "WEP" | Nopass => "None" end.
Proof.
  intros Hne Hs1 Hs2 Hp1 Hp2 s. subst s.
  assert (HS : forall rest, takeUntilSemicolon (ssid ++ String ";" rest) = ssid)
    by (intros; apply takeUntilSemicolon_field; assumption).
  assert (HP : forall rest,
             takeUntilSemicolon (password ++ String ";" rest) = password)
    by (intros; apply takeUntilSemicolon_field; assumption).
  assert (KS : forall key rest,
             matchField key (ssid ++ String ";" rest)
             = matchField key (String ";" rest))
    by (intros; apply matchField_skip; [assumption | reflexivity]).
  assert (KP : forall key rest,
             matchField key (password ++ String ";" rest)
             = matchField key (String ";" rest))
    by (intros; apply matchField_skip; [assumption | reflexivity]).
  split; [| split].
  - destruct enc; cbn [append matchField Ascii.eqb Bool.eqb];
      rewrite HS; destruct ssid; [contradiction | reflexivity
                                  | contradiction | reflexivity
                                  | contradiction | reflexivity].
  - destruct enc; cbn [append matchField Ascii.eqb Bool.eqb];
      rewrite KS; cbn [append matchField Ascii.eqb Bool.eqb];
      rewrite HP;
      (destruct password as [| c p];
       [ destruct hidden; reflexivity | reflexivity ]).
  - destruct enc; cbn [append matchField takeUntilSemicolon Ascii.eqb Bool.eqb];
      try reflexivity.
    rewrite KS. cbn [append matchField Ascii.eqb Bool.eqb].
    rewrite KP. destruct hidden; reflexivity.
Qed.

(** X18: a WiFi code made by the generator reads back in the result
    modal: for an ssid and password free of semicolons and colons (ssid
    non-empty) the modal shows that ssid, that password, and the
    encryption name, with "None" for an open network. *)
Theorem wifi_round_trip
    (URLSearchParams_get : string -> string -> option string)
    (URL_hostname : string -> option string)
    (encodeURIComponent : string -> string)
    (t : Templates) (cfg : Config) (result : ScanResult) :
  contentType t = CtWifi ->
  ssid (wifiData t) <> "" ->
  hasChar ";" (ssid (wifiData t)) = false ->
  hasChar ":" (ssid (wifiData t)) = false ->
  hasChar ";" (password (wifiData t)) = false ->
  hasChar ":" (password (wifiData t)) = false ->
  data result = text (templateEffect encodeURIComponent t cfg) ->
  renderContent URLSearchParams_get URL_hostname result
  = WifiCard (ssid (wifiData t)) (password (wifiData t))
             match encryption (wifiData t) with
             | WPA => "WPA" | WEP => "WEP" | Nopass => "None"
             end.
Proof.
  intros Hct Hne Hs1 Hs2 Hp1 Hp2 Hdata.
  assert (Htext : text (templateEffect encodeURIComponent t cfg)
                  = "WIFI:T:"
                    ++ match encryption (wifiData t) with
                       | WPA => "WPA" | WEP => "WEP" | Nopass => ""
                       end
                    ++ ";S:" ++ ssid (wifiData t)
                    ++ ";P:" ++ password (wifiData t)
                    ++ ";H:" ++ (if hidden (wifiData t) then "true" else "false")
                    ++ ";;").
  { unfold templateEffect, templateText. rewrite Hct.
    destruct (ssid (wifiData t)) eqn:E; [contradiction |].
    cbv beta iota zeta delta [truthy].
    destruct (encryption (wifiData t)), (hidden (wifiData t)); reflexivity. }
  destruct (wifi_fields_read_back (encryption (wifiData t))
              (ssid (wifiData t)) (password (wifiData t))
              (hidden (wifiData t)) Hne Hs1 Hs2 Hp1 Hp2)
    as (HS & HP & HT).
  cbv zeta in HS, HP, HT. rewrite <- Htext, <- Hdata in HS, HP, HT.
  unfold renderContent.
  assert (Hw : prefix "WIFI:" (data result) = true)
    by (rewrite Hdata, Htext; reflexivity).
  rewrite Hw, HS, HP, HT. reflexivity.
Qed.

Lemma wifi_round_trip_witness :
  renderContent (fun _ _ => None) (fun _ => None)
    (newScanOf "WIFI:T:WPA;S:Home;P:secret1;H:false;;" None "id-1" 1500)
  = WifiCard "Home" "secret1" "WPA".
Proof.
  apply (wifi_round_trip (fun _ _ => None) (fun _ => None) (fun s => s)
           Sample.templates Sample.config
           (newScanOf "WIFI:T:WPA;S:Home;P:secret1;H:false;;" None "id-1"
                      1500));
    first [reflexivity | discriminate].
Defined.

(** A field that breaks the conditions is not read back: an ssid holding
    a semicolon is cut there. *)
Example wifi_ssid_with_semicolon_is_cut :
  renderContent (fun _ _ => None) (fun _ => None)
    (newScanOf "WIFI:T:WPA;S:Cafe;Bar;P:secret1;H:false;;" None "id-1" 1500)
  = WifiCard "Cafe" "secret1" "WPA".
Proof. reflexivity. Qed.

Lemma takeUntilSemicolon_split (s : string) :
  hasChar ";" (takeUntilSemicolon s) = false
  /\ exists post, s = takeUntilSemicolon s ++ post.
Proof.
  induction s as [| a s [IH1 [post IH2]]]; simpl.
  - split; [reflexivity | exists ""; reflexivity].
  - destruct (Ascii.eqb a ";") eqn:E; simpl.
    + split; [reflexivity | eexists; reflexivity].
    + rewrite E, IH1. split; [reflexivity |].
      exists post. rewrite <- IH2. reflexivity.
Qed.

(** X19: whatever the scanned string, a field the modal extracts with
    [/K:([^;]+)/] is never empty, never holds a semicolon, and stands in
    the string right after [K:]. *)
Theorem matchField_sound (key : ascii) (s v : string) :
  matchField key s = Some v ->
  v <> ""
  /\ hasChar ";" v = false
  /\ exists pre post, s = pre ++ String key (String ":" (v ++ post)).
Proof.
  induction s as [| a s IH]; [discriminate |].
  cbn [matchField]. intros H.
  destruct (Ascii.eqb_spec a key) as [-> | Hk].
  - destruct s as [| c value].
    + simpl in H. discriminate.
    + destruct (Ascii.eqb_spec c ":") as [-> | Hc].
      * destruct (takeUntilSemicolon value) as [| x taken] eqn:Et.
        -- destruct (IH H) as (Hv & Hsemi & pre & post & Hs).
           split; [exact Hv |]. split; [exact Hsemi |].
           exists (String key pre), post. simpl. rewrite Hs. reflexivity.
        -- injection H as <-.
           destruct (takeUntilSemicolon_split value) as [Hsemi [post Hp]].
           rewrite Et in Hsemi, Hp.
           split; [discriminate |]. split; [exact Hsemi |].
           exists "", post. simpl. rewrite Hp at 1. reflexivity.
      * destruct (IH H) as (Hv & Hsemi & pre & post & Hs).
        split; [exact Hv |]. split; [exact Hsemi |].
        exists (String key pre), post. simpl. rewrite Hs. reflexivity.
  - destruct (IH H) as (Hv & Hsemi & pre & post & Hs).
    split; [exact Hv |]. split; [exact Hsemi |].
    exists (String a pre), post. simpl. rewrite Hs. reflexivity.
Qed.

Lemma matchField_sound_witness :
  "Home" <> ""
  /\ hasChar ";" "Home" = false
  /\ exists pre post,
       "WIFI:T:WPA;S:Home;P:secret1;H:false;;"
       = pre ++ String "S" (String ":" ("Home" ++ post)).
Proof.
  apply (matchField_sound "S" "WIFI:T:WPA;S:Home;P:secret1;H:false;;" "Home").
  reflexivity.
Defined.

(** ** Reading an e-mail code back *)

Lemma substring_all (s : string) : substring 0 (String.length s) s = s.
Proof.
  induction s as [| a s IH]; simpl; [reflexivity | rewrite IH; reflexivity].
Qed.

Lemma prefix_nil (s : string) : prefix "" s = true.
Proof. destruct s; reflexivity. Qed.

Lemma beforeQuestionMark_field (v rest : string) :
  hasChar "?" v = false ->
  beforeQuestionMark (v ++ String "?" rest) = v.
Proof.
  induction v as [| a v IH]; simpl; intros H; [reflexivity |].
  apply orb_false_iff in H. destruct H as [Ha Hv].
  rewrite Ha, (IH Hv). reflexivity.
Qed.

(** X20: an e-mail code made by the generator is shown by the modal as an
    e-mail card with the address that was entered, provided the address
    holds no question mark; subject and body are whatever
    [URLSearchParams] finds in the query. *)
Theorem email_round_trip
    (URLSearchParams_get : string -> string -> option string)
    (URL_hostname : string -> option string)
    (encodeURIComponent : string -> string)
    (t : Templates) (cfg : Config) (result : ScanResult) :
  contentType t = CtEmail ->
  email (emailData t) <> "" ->
  hasChar "?" (email (emailData t)) = false ->
  data result = text (templateEffect encodeURIComponent t cfg) ->
  renderContent URLSearchParams_get URL_hostname result
  = EmailCard (email (emailData t))
      (URLSearchParams_get (querySegment (data result)) "subject")
      (URLSearchParams_get (querySegment (data result)) "body").
Proof.
  intros Hct Hne Hq Hdata.
  assert (Htext : text (templateEffect encodeURIComponent t cfg)
                  = "mailto:"
                    ++ (email (emailData t)
                        ++ String "?"
                             ("subject="
                              ++ encodeURIComponent (subject (emailData t))
                              ++ "&body="
                              ++ encodeURIComponent (body (emailData t))))).
  { unfold templateEffect, templateText. rewrite Hct.
    destruct (email (emailData t)) eqn:E; [contradiction |]. reflexivity. }
  unfold renderContent.
  assert (Hw : prefix "WIFI:" (data result) = false)
    by (rewrite Hdata, Htext; reflexivity).
  assert (Hpre : forall tail, prefix "mailto:" ("mailto:" ++ tail) = true)
    by (intros; simpl; apply prefix_nil).
  assert (Hm : prefix "mailto:" (data result) = true)
    by (rewrite Hdata, Htext; apply Hpre).
  rewrite Hw, Hm. f_equal.
  rewrite Hdata, Htext.
  set (tail := email (emailData t) ++ String "?" _).
  assert (Hr : replaceFirst "mailto:" "" ("mailto:" ++ tail) = tail).
  { unfold replaceFirst.
    destruct ("mailto:" ++ tail) as [| a0 s0] eqn:Es; [discriminate |].
    rewrite <- Es, Hpre.
    cbn [append String.length Nat.sub substring].
    rewrite Nat.sub_0_r. apply substring_all. }
  rewrite Hr. subst tail.
  apply beforeQuestionMark_field. exact Hq.
Qed.

Lemma email_round_trip_witness :
  renderContent (fun _ _ => None) (fun _ => None)
    (newScanOf "mailto:a@b.com?subject=Hi&body=Yo" None "id-1" 1500)
  = EmailCard "a@b.com" None None.
Proof.
  apply (email_round_trip (fun _ _ => None) (fun _ => None) (fun s => s)
           {| contentType := CtEmail; urlValue := "";
              wifiData := Sample.wifi;
              emailData := {| email := "a@b.com"; subject := "Hi";
                              body := "Yo" |};
              vcardData := vcardData Sample.templates |}
           Sample.config
           (newScanOf "mailto:a@b.com?subject=Hi&body=Yo" None "id-1" 1500));
    first [reflexivity | discriminate].
Defined.

(** ** Scans, their type and their card *)

Lemma prefix_http_excludes (d : string) :
  prefix "http" d = true ->
  prefix "WIFI:" d = false /\ prefix "mailto:" d = false.
Proof.
  destruct d as [| a d]; [discriminate |].
  cbn [prefix]. destruct (ascii_dec "h" a) as [<- | _]; [| discriminate].
  intros _. split; reflexivity.
Qed.

(** X21: how a scan recorded by [handleScan] is typed and shown.  Its type
    is never ['other'].  Data starting with [http] is typed ['url'] and
    shown as a link card; data starting with none of [http], [WIFI:] and
    [mailto:] is shown as plain text, also when it was typed ['email']. *)
Theorem scan_type_and_card
    (URLSearchParams_get : string -> string -> option string)
    (URL_hostname : string -> option string)
    (d : string) (image : option string) (uuid : string) (created : Z) :
  type (newScanOf d image uuid created) <> TypeOther
  /\ (prefix "http" d = true ->
      type (newScanOf d image uuid created) = TypeUrl
      /\ renderContent URLSearchParams_get URL_hostname
           (newScanOf d image uuid created)
         = UrlCard match URL_hostname d with
                   | Some h => h
                   | None => "Website"
                   end)
  /\ (prefix "http" d = false -> prefix "WIFI:" d = false ->
      prefix "mailto:" d = false ->
      renderContent URLSearchParams_get URL_hostname
        (newScanOf d image uuid created)
      = TextCard d).
Proof.
  split; [| split].
  - cbn [type newScanOf]. unfold detectType.
    destruct (prefix "http" d), (prefix "WIFI:" d),
             (includes "@" d && includes "." d); discriminate.
  - intros Hh. destruct (prefix_http_excludes d Hh) as [Hw Hm].
    unfold renderContent. cbn [type data newScanOf]. unfold detectType.
    rewrite Hh, Hw, Hm. split; reflexivity.
  - intros Hh Hw Hm.
    unfold renderContent. cbn [type data newScanOf]. unfold detectType.
    rewrite Hh, Hw, Hm.
    destruct (includes "@" d && includes "." d); reflexivity.
Qed.

Lemma scan_type_and_card_witness :
  type (newScanOf "user@example.com" None "id-1" 1500) = TypeEmail
  /\ renderContent (fun _ _ => None) (fun _ => None)
       (newScanOf "user@example.com" None "id-1" 1500)
     = TextCard "user@example.com".
Proof.
  split; [reflexivity |].
  apply (proj2 (proj2 (scan_type_and_card (fun _ _ => None) (fun _ => None)
                         "user@example.com" None "id-1" 1500)));
    reflexivity.
Defined.

(** ** Updating a scan *)

Lemma updateScanResult_absent (updated : ScanResult) (l : list ScanResult) :
  ~ In (id updated) (map id l) ->
  map (fun p => if String.eqb (id p) (id updated) then updated else p) l = l.
Proof.
  induction l as [| p l IH]; [reflexivity |].
  simpl. intros Hnot.
  destruct (String.eqb_spec (id p) (id updated)) as [E | E].
  - exfalso. apply Hnot. left. exact E.
  - rewrite IH; [reflexivity |]. intros H. apply Hnot. right. exact H.
Qed.

(** X22: [updateScanResult] replaces exactly the entries that carry the
    id of the updated result: the list keeps its length and its ids in
    order, every entry afterwards is either the updated result or an
    untouched entry with another id, and a history without that id is
    left as it is. *)
Theorem updateScanResult_replaces_by_id (updated : ScanResult)
    (st : AppState) :
  map id (scannedHistory (updateScanResult updated st))
  = map id (scannedHistory st)
  /\ (forall p, In p (scannedHistory (updateScanResult updated st)) ->
        (p = updated /\ In (id updated) (map id (scannedHistory st)))
        \/ (In p (scannedHistory st) /\ id p <> id updated))
  /\ (~ In (id updated) (map id (scannedHistory st)) ->
      scannedHistory (updateScanResult updated st) = scannedHistory st)
  /\ currentResult (updateScanResult updated st) = Some updated.
Proof.
  cbn [scannedHistory currentResult updateScanResult].
  split; [| split; [| split]].
  - rewrite map_map. apply map_ext_in. intros p _.
    destruct (String.eqb_spec (id p) (id updated)) as [E | E];
      [symmetry; exact E | reflexivity].
  - intros p Hp. apply in_map_iff in Hp. destruct Hp as (q & Hq & Hin).
    destruct (String.eqb_spec (id q) (id updated)) as [E | E].
    + left. split; [symmetry; exact Hq |].
      apply in_map_iff. exists q. auto.
    + right. subst p. auto.
  - apply updateScanResult_absent.
  - reflexivity.
Qed.

Lemma updateScanResult_replaces_by_id_witness :
  scannedHistory
    (updateScanResult (newScanOf "y" None "id-9" 5) Sample.history)
  = scannedHistory Sample.history.
Proof.
  apply (proj1 (proj2 (proj2 (updateScanResult_replaces_by_id
                                (newScanOf "y" None "id-9" 5)
                                Sample.history)))).
  simpl. intros [H | []]. discriminate H.
Defined.

(** X23: a suppressed duplicate still becomes the current result, under
    its fresh id, without entering the history; an AI summary obtained for
    it afterwards is therefore kept on the current result only and the
    history stays as it was. *)
Theorem suppressed_scan_summary_not_recorded (d : string)
    (image : option string) (uuid : string) (created now : Z)
    (st : AppState) (prev0 : ScanResult) (rest : list ScanResult)
    (aiData : GeminiAnalysis) (modal : ModalState) :
  scannedHistory st = prev0 :: rest ->
  data prev0 = d ->
  now - timestamp prev0 < 2000 ->
  ~ In uuid (map id (scannedHistory st)) ->
  let st1 := handleScan d image uuid created now st in
  let st2 := snd (handleAnalyze true (Some aiData) (currentResult st1)
                                modal st1) in
  currentResult st1 = Some (newScanOf d image uuid created)
  /\ scannedHistory st1 = scannedHistory st
  /\ scannedHistory st2 = scannedHistory st
  /\ currentResult st2
     = Some (withAiSummary (newScanOf d image uuid created)
                           (summary aiData)).
Proof.
  intros Hst Hdata Hage Hfresh st1 st2.
  assert (H1 : scannedHistory st1 = scannedHistory st).
  { subst st1. cbn [scannedHistory handleScan]. rewrite Hst.
    apply historyUpdater_suppresses; [exact Hdata | exact Hage]. }
  split; [reflexivity |]. split; [exact H1 |].
  subst st2. cbn [currentResult handleScan st1 handleAnalyze negb snd].
  split; [| reflexivity].
  cbn [scannedHistory updateScanResult]. fold st1. rewrite H1.
  apply updateScanResult_absent. exact Hfresh.
Qed.

Lemma suppressed_scan_summary_not_recorded_witness :
  scannedHistory
    (snd (handleAnalyze true
            (Some {| summary := "A letter"; safetyRating := Safe;
                     category := "Plain Text"; actions := [] |})
            (currentResult
               (handleScan "x" None "id-1" 1500 1500 Sample.history))
            {| analyzing := false; analysis := None |}
            (handleScan "x" None "id-1" 1500 1500 Sample.history)))
  = scannedHistory Sample.history.
Proof.
  assert (Hfresh : ~ In "id-1" (map id (scannedHistory Sample.history))).
  { simpl. intros [H | []]. discriminate H. }
  assert (Hage : 1500 - timestamp (newScanOf "x" None "id-0" 0) < 2000)
    by (simpl; lia).
  exact (proj1 (proj2 (proj2
           (suppressed_scan_summary_not_recorded
              "x" None "id-1" 1500 1500 Sample.history
              (newScanOf "x" None "id-0" 0) []
              {| summary := "A letter"; safetyRating := Safe;
                 category := "Plain Text"; actions := [] |}
              {| analyzing := false; analysis := None |}
              eq_refl eq_refl Hage Hfresh)))).
Defined.

(** X24: [handleAnalyze] changes the history only on success.  Without a
    result, without a configured AI, or when the analysis yields nothing,
    the history and the current result stay as they are; on success every
    history entry with the id of the result becomes the result with the
    new summary, and so does the current result. *)
Theorem handleAnalyze_outcomes (aiAvailable : bool)
    (aiData : option GeminiAnalysis) (result : option ScanResult)
    (modal : ModalState) (st : AppState) :
  (result = None \/ aiAvailable = false \/ aiData = None ->
   snd (handleAnalyze aiAvailable aiData result modal st) = st)
  /\ (forall r a,
         result = Some r -> aiAvailable = true -> aiData = Some a ->
         let st' := snd (handleAnalyze aiAvailable aiData result modal st) in
         analysis (fst (handleAnalyze aiAvailable aiData result modal st))
         = Some a
         /\ currentResult st' = Some (withAiSummary r (summary a))
         /\ (forall p, In p (scannedHistory st) -> id p = id r ->
               In (withAiSummary r (summary a)) (scannedHistory st'))
         /\ (forall p, In p (scannedHistory st) -> id p <> id r ->
               In p (scannedHistory st'))).
Proof.
  split.
  - intros [-> | [-> | ->]]; [reflexivity | |].
    + destruct result; reflexivity.
    + destruct result, aiAvailable; reflexivity.
  - intros r a -> -> -> st'. subst st'.
    cbn [handleAnalyze negb fst snd analysis currentResult scannedHistory
         updateScanResult].
    split; [reflexivity |]. split; [reflexivity |]. split.
    + intros p Hp Hid. apply in_map_iff. exists p. split; [| exact Hp].
      cbn [id withAiSummary]. rewrite Hid, String.eqb_refl. reflexivity.
    + intros p Hp Hid. apply in_map_iff. exists p. split; [| exact Hp].
      cbn [id withAiSummary].
      destruct (String.eqb_spec (id p) (id r)); [contradiction | reflexivity].
Qed.

Lemma handleAnalyze_outcomes_witness :
  In (withAiSummary (newScanOf "x" None "id-0" 0) "A letter")
     (scannedHistory
        (snd (handleAnalyze true
                (Some {| summary := "A letter"; safetyRating := Safe;
                         category := "Plain Text"; actions := [] |})
                (Some (newScanOf "x" None "id-0" 0))
                {| analyzing := false; analysis := None |}
                Sample.history))).
Proof.
  apply (proj1 (proj2 (proj2
           (proj2 (handleAnalyze_outcomes true
                     (Some {| summary := "A letter"; safetyRating := Safe;
                              category := "Plain Text"; actions := [] |})
                     (Some (newScanOf "x" None "id-0" 0))
                     {| analyzing := false; analysis := None |}
                     Sample.history)
                  (newScanOf "x" None "id-0" 0)
                  {| summary := "A letter"; safetyRating := Safe;
                     category := "Plain Text"; actions := [] |}
                  eq_refl eq_refl eq_refl)))
           (newScanOf "x" None "id-0" 0)).
  - left. reflexivity.
  - reflexivity.
Defined.

(** ** Downloading *)

(** X25: a download records a history item only when there is an output:
    with an empty [generatedBase64] the generated history is unchanged,
    otherwise one item is prepended, carrying the current content string
    and the output; in particular nothing is recorded right after a
    rendering of empty content. *)
Theorem handleDownload_records_output
    (QRCode_create : string -> ErrorLevel -> Exn + BitMatrix.t)
    (toDataURL : Canvas -> string) (imageLoads : string -> bool)
    (rejects : bool) (cfg : Config) (w : World) (uuid : string) (now : Z)
    (generatedHistory : list GeneratedQR) :
  (generatedBase64 w = "" ->
   handleDownload cfg w uuid now generatedHistory = generatedHistory)
  /\ (generatedBase64 w <> "" ->
      handleDownload cfg w uuid now generatedHistory
      = {| gen_id := uuid; gen_data := text cfg; gen_timestamp := now;
           gen_base64 := generatedBase64 w |} :: generatedHistory)
  /\ (text cfg = "" ->
      handleDownload cfg
        (run (generateQR QRCode_create toDataURL imageLoads rejects cfg) w)
        uuid now generatedHistory
      = generatedHistory).
Proof.
  unfold handleDownload, handleGenerate. split; [| split].
  - intros ->. reflexivity.
  - intros Hne. destruct (generatedBase64 w); [contradiction | reflexivity].
  - intros Htext. unfold run, generateQR. rewrite Htext. reflexivity.
Qed.

Lemma handleDownload_records_output_witness :
  handleDownload (setText "" Sample.config)
    (run (generateQR Sample.QRCode_create Sample.toDataURL Sample.imageLoads
                     true (setText "" Sample.config))
         Sample.world)
    "id-7" 99 []
  = [].
Proof.
  apply (proj2 (proj2 (handleDownload_records_output
                         Sample.QRCode_create Sample.toDataURL
                         Sample.imageLoads true (setText "" Sample.config)
                         Sample.world "id-7" 99 []))).
  reflexivity.
Defined.

Local Close Scope string_scope.

(** ** Contrast check *)

Lemma hexDigit_range (c : ascii) (z : Z) :
  hexDigit c = Some z -> 0 <= z <= 15.
Proof.
  unfold hexDigit. set (code := Z.of_nat (nat_of_ascii c)). clearbody code.
  intros H.
  destruct ((48 <=? code) && (code <=? 57)) eqn:E1.
  { apply andb_true_iff in E1. rewrite !Z.leb_le in E1.
    assert (z = code - 48) by congruence. lia. }
  destruct ((65 <=? code) && (code <=? 70)) eqn:E2.
  { apply andb_true_iff in E2. rewrite !Z.leb_le in E2.
    assert (z = code - 55) by congruence. lia. }
  destruct ((97 <=? code) && (code <=? 102)) eqn:E3.
  { apply andb_true_iff in E3. rewrite !Z.leb_le in E3.
    assert (z = code - 87) by congruence. lia. }
  discriminate.
Qed.

Lemma hexPair_range (hi lo : ascii) (z : Z) :
  hexPair hi lo = Some z -> 0 <= z <= 255.
Proof.
  unfold hexPair.
  destruct (hexDigit hi) as [h |] eqn:Hh; [| discriminate].
  destruct (hexDigit lo) as [l |] eqn:Hl; [| discriminate].
  intros H. assert (Hz : z = 16 * h + l) by congruence. clear H.
  apply hexDigit_range in Hh. apply hexDigit_range in Hl. lia.
Qed.

Lemma parseHexColor_range (hex : string) (r g b : Z) :
  parseHexColor hex = Some (r, g, b) ->
  0 <= r <= 255 /\ 0 <= g <= 255 /\ 0 <= b <= 255.
Proof.
  unfold parseHexColor.
  set (digits := match hex with String "#" rest => rest | _ => hex end).
  clearbody digits.
  destruct digits as [| r1 [| r2 [| g1 [| g2 [| b1 [| b2 [| x rest]]]]]]];
    try discriminate.
  destruct (hexPair r1 r2) as [r' |] eqn:Hr; [| discriminate].
  destruct (hexPair g1 g2) as [g' |] eqn:Hg; [| discriminate].
  destruct (hexPair b1 b2) as [b' |] eqn:Hb; [| discriminate].
  intros H. injection H as <- <- <-.
  apply hexPair_range in Hr. apply hexPair_range in Hg.
  apply hexPair_range in Hb. auto.
Qed.

Section ContrastFacts.

Variable pow : Q -> Q -> Q.

(** [Math.pow] of a non-negative base is non-negative. *)
Hypothesis pow_nonneg : forall x y : Q, (0 <= x)%Q -> (0 <= pow x y)%Q.

Lemma linearChannel_nonneg (v : Z) :
  0 <= v -> (0 <= linearChannel pow v)%Q.
Proof.
  intros Hv. unfold linearChannel.
  assert (H0 : (0 <= inject_Z v / 255)%Q).
  { apply Qle_shift_div_l; [reflexivity |]. rewrite Qmult_0_l.
    change 0%Q with (inject_Z 0). rewrite <- Zle_Qle. exact Hv. }
  destruct (Qle_bool (inject_Z v / 255) 0.03928).
  - apply Qle_shift_div_l; [reflexivity |]. rewrite Qmult_0_l. exact H0.
  - apply pow_nonneg. apply Qle_shift_div_l; [reflexivity |].
    rewrite Qmult_0_l.
    apply Qle_trans with (inject_Z v / 255)%Q; [exact H0 |].
    rewrite <- (Qplus_0_r (inject_Z v / 255)) at 1.
    apply Qplus_le_r. discriminate.
Qed.

Lemma getLuminance_nonneg (hex : string) : (0 <= getLuminance pow hex)%Q.
Proof.
  unfold getLuminance.
  destruct (parseHexColor hex) as [[[r g] b] |] eqn:E; [| discriminate].
  apply parseHexColor_range in E. destruct E as (Hr & Hg & Hb).
  pose proof (linearChannel_nonneg r (proj1 Hr)).
  pose proof (linearChannel_nonneg g (proj1 Hg)).
  pose proof (linearChannel_nonneg b (proj1 Hb)).
  change 0.2126%Q with (2126 # 10000)%Q. change 0.7152%Q with (7152 # 10000)%Q.
  change 0.0722%Q with (722 # 10000)%Q.
  set (lr := linearChannel pow r) in *. set (lg := linearChannel pow g) in *.
  set (lb := linearChannel pow b) in *. clearbody lr lg lb. lra.
Qed.

(** The ratio in terms of the two luminances. *)
Lemma ratio_at_least_1 (l1 l2 : Q) :
  (0 <= l1)%Q -> (0 <= l2)%Q ->
  (1 <= (Qmax l1 l2 + 0.05) / (Qmin l1 l2 + 0.05))%Q.
Proof.
  intros H1 H2.
  assert (Hmin : (0 <= Qmin l1 l2)%Q) by (apply Q.min_glb; assumption).
  assert (Hle : (Qmin l1 l2 <= Qmax l1 l2)%Q).
  { apply Qle_trans with l1; [apply Q.le_min_l | apply Q.le_max_l]. }
  change 0.05%Q with (5 # 100)%Q.
  apply Qle_shift_div_l; [lra | lra].
Qed.

(** X26: the contrast ratio does not depend on which of the two colours
    is the foreground, and it is never below 1. *)
Theorem contrastRatio_symmetric_at_least_1 (fgColor1 bgColor1 : string) :
  (contrastRatio pow fgColor1 bgColor1
   == contrastRatio pow bgColor1 fgColor1)%Q
  /\ (1 <= contrastRatio pow fgColor1 bgColor1)%Q.
Proof.
  unfold contrastRatio. split.
  - rewrite (Q.max_comm (getLuminance pow fgColor1)).
    rewrite (Q.min_comm (getLuminance pow fgColor1)). reflexivity.
  - apply ratio_at_least_1; apply getLuminance_nonneg.
Qed.

Lemma equal_luminance_low_contrast (fgColor1 bgColor1 : string) :
  (getLuminance pow fgColor1 == getLuminance pow bgColor1)%Q ->
  isLowContrast pow fgColor1 bgColor1 = true.
Proof.
  intros Heq. unfold isLowContrast, contrastRatio.
  pose proof (getLuminance_nonneg bgColor1) as H2.
  rewrite Heq, Q.max_id, Q.min_id.
  set (l := getLuminance pow bgColor1) in *. clearbody l.
  apply negb_true_iff.
  destruct (Qle_bool 2.2 ((l + 0.05) / (l + 0.05))) eqn:E; [| reflexivity].
  apply Qle_bool_iff in E.
  assert (H1 : ((l + 0.05) / (l + 0.05) == 1)%Q).
  { change 0.05%Q with (5 # 100)%Q. field. lra. }
  rewrite H1 in E. change 2.2%Q with (22 # 10)%Q in E. lra.
Qed.

(** X27: the low-contrast warning is raised whenever the two colours are
    the same string, and whenever neither is a six-digit hex colour (a
    name such as [white], or the shorthand [#fff]): both then count as
    luminance 0.5. *)
Theorem degenerate_colors_flagged (fgColor1 bgColor1 : string) :
  isLowContrast pow fgColor1 fgColor1 = true
  /\ (parseHexColor fgColor1 = None -> parseHexColor bgColor1 = None ->
      isLowContrast pow fgColor1 bgColor1 = true).
Proof.
  split.
  - apply equal_luminance_low_contrast. reflexivity.
  - intros Hf Hb. apply equal_luminance_low_contrast.
    unfold getLuminance. rewrite Hf, Hb. reflexivity.
Qed.

End ContrastFacts.

Lemma square_pow_nonneg (x y : Q) : (0 <= x)%Q -> (0 <= x * x)%Q.
Proof. intros H. apply Qmult_le_0_compat; exact H. Qed.

Lemma contrastRatio_symmetric_at_least_1_witness :
  (contrastRatio (fun x _ => x * x) "#1e293b" "#a3e635"
   == contrastRatio (fun x _ => x * x) "#a3e635" "#1e293b")%Q
  /\ (1 <= contrastRatio (fun x _ => x * x) "#1e293b" "#a3e635")%Q.
Proof.
  exact (contrastRatio_symmetric_at_least_1 (fun x _ => x * x)%Q
           square_pow_nonneg "#1e293b" "#a3e635").
Defined.

Lemma degenerate_colors_flagged_witness :
  isLowContrast (fun x _ => x * x)%Q "black" "black" = true
  /\ isLowContrast (fun x _ => x * x)%Q "black" "#fff" = true.
Proof.
  destruct (degenerate_colors_flagged (fun x _ => x * x)%Q
              square_pow_nonneg "black" "#fff") as [H1 H2].
  split; [exact H1 | apply H2; reflexivity].
Defined.

(** ** Scanner arithmetic *)

Lemma Qdiv_mult_cancel (a w : Q) : (0 < w)%Q -> (w * (a / w) == a)%Q.
Proof. intros Hw. field. lra. Qed.

Lemma Qdiv_pos (a w : Q) : (0 < a)%Q -> (0 < w)%Q -> (0 < a / w)%Q.
Proof.
  intros Ha Hw. apply Qlt_shift_div_l; [exact Hw |]. rewrite Qmult_0_l.
  exact Ha.
Qed.

(** Scaling both sides by the smaller of [m / w] and [m / h]. *)
Lemma fit_within (m w h : Q) :
  (0 < m)%Q -> (0 < w)%Q -> (0 < h)%Q ->
  let ratio := Qmin (m / w) (m / h) in
  (w * ratio <= m /\ h * ratio <= m
   /\ Qmax (w * ratio) (h * ratio) == m
   /\ (w * ratio) * h == (h * ratio) * w)%Q.
Proof.
  intros Hm Hw Hh ratio.
  pose proof (Qdiv_mult_cancel m w Hw) as Ew.
  pose proof (Qdiv_mult_cancel m h Hh) as Eh.
  pose proof (Qdiv_pos m w Hm Hw) as Pw.
  pose proof (Qdiv_pos m h Hm Hh) as Ph.
  set (rw := (m / w)%Q) in *. set (rh := (m / h)%Q) in *.
  assert (Hasp : ((w * ratio) * h == (h * ratio) * w)%Q) by ring.
  destruct (Q.min_spec rw rh) as [[Hlt Hmin] | [Hle Hmin]]; fold ratio in Hmin.
  - assert (A : (w * ratio == m)%Q) by (rewrite Hmin; exact Ew).
    assert (B : (h * ratio <= m)%Q).
    { rewrite Hmin, <- Eh. apply Qmult_le_l; [exact Hh | lra]. }
    repeat split; [lra | exact B | | exact Hasp].
    rewrite Q.max_l; [exact A | lra].
  - assert (A : (h * ratio == m)%Q) by (rewrite Hmin; exact Eh).
    assert (B : (w * ratio <= m)%Q).
    { rewrite Hmin, <- Ew. apply Qmult_le_l; [exact Hw | exact Hle]. }
    repeat split; [exact B | lra | | exact Hasp].
    rewrite Q.max_r; [exact A | lra].
Qed.

(** X28: an uploaded image (positive dimensions) is downsampled only when
    a side exceeds 1200: then the longer side becomes exactly 1200, the
    other stays below, and the aspect ratio is kept; an image within the
    limit is passed through unchanged.  The image is never enlarged. *)
Theorem downsample_fits (width height : Q) :
  (0 < width)%Q -> (0 < height)%Q ->
  let w' := fst (downsample width height) in
  let h' := snd (downsample width height) in
  (w' * height == h' * width)%Q
  /\ (w' <= width /\ h' <= height)%Q
  /\ (w' <= 1200 /\ h' <= 1200)%Q
  /\ ((1200 < width \/ 1200 < height)%Q -> (Qmax w' h' == 1200)%Q)
  /\ ((width <= 1200 /\ height <= 1200)%Q ->
      downsample width height = (width, height)).
Proof.
  intros Hw Hh w' h'. subst w' h'. unfold downsample, maxDimension.
  destruct (Qle_bool width 1200) eqn:Ew; destruct (Qle_bool height 1200) eqn:Eh;
    cbn [negb orb fst snd].
  - apply Qle_bool_iff in Ew. apply Qle_bool_iff in Eh.
    repeat split; try lra; try reflexivity; try (intros [H | H]; lra).
  - apply Qle_bool_iff in Ew.
    assert (Eh' : (1200 < height)%Q).
    { apply Qnot_le_lt. intros H. apply Qle_bool_iff in H. congruence. }
    destruct (fit_within 1200 width height) as (A & B & C & D);
      [reflexivity | exact Hw | exact Hh |].
    cbv zeta in A, B, C, D.
    set (ratio := Qmin (1200 / width) (1200 / height)) in *.
    assert (R : (ratio <= 1)%Q).
    { apply Qle_trans with (1200 / height)%Q; [apply Q.le_min_r |].
      apply Qle_shift_div_r; [exact Hh | lra]. }
    assert (P : (0 <= ratio)%Q).
    { apply Q.min_glb; apply Qlt_le_weak; apply Qdiv_pos;
        first [reflexivity | assumption]. }
    assert (Wd : (width * ratio <= width * 1)%Q)
      by (apply Qmult_le_l; assumption).
    assert (Hd : (height * ratio <= height * 1)%Q)
      by (apply Qmult_le_l; assumption).
    repeat split; try assumption; try lra; try (intros [_ H]; lra).
  - apply Qle_bool_iff in Eh.
    assert (Ew' : (1200 < width)%Q).
    { apply Qnot_le_lt. intros H. apply Qle_bool_iff in H. congruence. }
    destruct (fit_within 1200 width height) as (A & B & C & D);
      [reflexivity | exact Hw | exact Hh |].
    cbv zeta in A, B, C, D.
    set (ratio := Qmin (1200 / width) (1200 / height)) in *.
    assert (R : (ratio <= 1)%Q).
    { apply Qle_trans with (1200 / width)%Q; [apply Q.le_min_l |].
      apply Qle_shift_div_r; [exact Hw | lra]. }
    assert (Wd : (width * ratio <= width * 1)%Q)
      by (apply Qmult_le_l; assumption).
    assert (Hd : (height * ratio <= height * 1)%Q)
      by (apply Qmult_le_l; assumption).
    repeat split; try assumption; try lra; try (intros [H _]; lra).
  - assert (Ew' : (1200 < width)%Q).
    { apply Qnot_le_lt. intros H. apply Qle_bool_iff in H. congruence. }
    destruct (fit_within 1200 width height) as (A & B & C & D);
      [reflexivity | exact Hw | exact Hh |].
    cbv zeta in A, B, C, D.
    set (ratio := Qmin (1200 / width) (1200 / height)) in *.
    assert (R : (ratio <= 1)%Q).
    { apply Qle_trans with (1200 / width)%Q; [apply Q.le_min_l |].
      apply Qle_shift_div_r; [exact Hw | lra]. }
    assert (Wd : (width * ratio <= width * 1)%Q)
      by (apply Qmult_le_l; assumption).
    assert (Hd : (height * ratio <= height * 1)%Q)
      by (apply Qmult_le_l; assumption).
    repeat split; try assumption; try lra; try (intros [H _]; lra).
Qed.

Lemma downsample_fits_witness :
  (fst (downsample 4000 3000) * 3000 == snd (downsample 4000 3000) * 4000)%Q
  /\ (Qmax (fst (downsample 4000 3000)) (snd (downsample 4000 3000))
      == 1200)%Q.
Proof.
  assert (Hw : (0 < 4000)%Q) by reflexivity.
  assert (Hh : (0 < 3000)%Q) by reflexivity.
  destruct (downsample_fits 4000 3000 Hw Hh) as (A & _ & _ & B & _).
  split; [exact A |]. apply B. left. reflexivity.
Defined.

(** X29: the scanning loop never enlarges a video frame (positive width):
    the scale is in [(0, 1]], the scan width is at most 800 and at most
    the video width, the aspect ratio is kept, and [invScale] maps scan
    coordinates back to video coordinates: the scan width times
    [invScale] is the video width again. *)
Theorem scan_frame_scaling (videoWidth videoHeight : Q) :
  (0 < videoWidth)%Q ->
  (0 < scanScale videoWidth /\ scanScale videoWidth <= 1)%Q
  /\ (scanW videoWidth <= 800 /\ scanW videoWidth <= videoWidth)%Q
  /\ (scanW videoWidth * videoHeight
      == scanH videoWidth videoHeight * videoWidth)%Q
  /\ (scanW videoWidth * invScale videoWidth == videoWidth)%Q
  /\ (scanH videoWidth videoHeight * invScale videoWidth == videoHeight)%Q.
Proof.
  intros Hw. unfold scanW, scanH, invScale.
  pose proof (Qdiv_mult_cancel 800 videoWidth Hw) as E.
  assert (P : (0 < 800 / videoWidth)%Q)
    by (apply Qdiv_pos; [reflexivity | exact Hw]).
  assert (S0 : (0 < scanScale videoWidth)%Q).
  { unfold scanScale. apply Q.min_glb_lt; [reflexivity | exact P]. }
  assert (S1 : (scanScale videoWidth <= 1)%Q)
    by (unfold scanScale; apply Q.le_min_l).
  assert (S2 : (scanScale videoWidth <= 800 / videoWidth)%Q)
    by (unfold scanScale; apply Q.le_min_r).
  set (sc := scanScale videoWidth) in *. clearbody sc.
  assert (A : (videoWidth * sc <= videoWidth * (800 / videoWidth))%Q)
    by (apply Qmult_le_l; assumption).
  assert (B : (videoWidth * sc <= videoWidth * 1)%Q)
    by (apply Qmult_le_l; assumption).
  split; [split; assumption |].
  split; [split; lra |].
  split; [ring |].
  split; field; lra.
Qed.

Lemma scan_frame_scaling_witness :
  (scanW 1920 <= 800)%Q /\ (scanW 1920 * invScale 1920 == 1920)%Q.
Proof.
  assert (Hw : (0 < 1920)%Q) by reflexivity.
  destruct (scan_frame_scaling 1920 1080 Hw) as (_ & [A _] & _ & B & _).
  split; [exact A | exact B].
Defined.

(** ** Switching cameras *)

Lemma findIndexFrom_absent (i : Z) (active : option string)
    (cameras : list string) :
  (forall a, active = Some a -> ~ In a cameras) ->
  findIndexFrom i active cameras = -1.
Proof.
  revert i. induction cameras as [| c cameras IH]; intros i H;
    [reflexivity |].
  cbn [findIndexFrom]. destruct active as [a |].
  - destruct (String.eqb_spec c a) as [-> | Hne].
    + exfalso. apply (H a eq_refl). left. reflexivity.
    + apply IH. intros a' Ha' Hin. apply (H a' Ha'). right. exact Hin.
  - apply IH. intros a' Ha'. discriminate Ha'.
Qed.

Lemma findIndexFrom_nth (i : Z) (a : string) (cameras : list string)
    (k : nat) :
  NoDup cameras ->
  nth_error cameras k = Some a ->
  findIndexFrom i (Some a) cameras = i + Z.of_nat k.
Proof.
  revert i k. induction cameras as [| c cameras IH]; intros i k Hnd Hk.
  - destruct k; discriminate.
  - cbn [findIndexFrom]. inversion Hnd as [| c' l' Hnotin Hnd']; subst.
    destruct k as [| k]; simpl in Hk.
    + injection Hk as ->. rewrite String.eqb_refl. lia.
    + destruct (String.eqb_spec c a) as [-> | Hne].
      * exfalso. apply Hnotin. eapply nth_error_In. exact Hk.
      * rewrite (IH (i + 1) k Hnd' Hk). lia.
Qed.

(** X30: with at most one camera [switchCamera] changes nothing.  With
    several cameras of distinct ids it selects the camera after the active
    one, wrapping from the last to the first; when the active id is unset
    or unknown it selects the first camera. *)
Theorem switchCamera_cycles (cameras : list string)
    (activeCameraId : option string) :
  ((List.length cameras <= 1)%nat ->
   switchCamera cameras activeCameraId = activeCameraId)
  /\ ((1 < List.length cameras)%nat ->
      (forall a, activeCameraId = Some a -> ~ In a cameras) ->
      switchCamera cameras activeCameraId = nth_error cameras 0)
  /\ ((1 < List.length cameras)%nat ->
      NoDup cameras ->
      forall (k : nat) (a : string),
        nth_error cameras k = Some a ->
        activeCameraId = Some a ->
        switchCamera cameras activeCameraId
        = nth_error cameras ((k + 1) mod List.length cameras)).
Proof.
  unfold switchCamera. split; [| split].
  - intros Hlen.
    destruct (Z.ltb_spec 1 (Z.of_nat (List.length cameras))); [lia |].
    reflexivity.
  - intros Hlen Habs.
    destruct (Z.ltb_spec 1 (Z.of_nat (List.length cameras))); [| lia].
    rewrite (findIndexFrom_absent 0 activeCameraId cameras Habs).
    change (-1 + 1) with 0. rewrite Z.rem_0_l by lia. reflexivity.
  - intros Hlen Hnd k a Hk ->.
    destruct (Z.ltb_spec 1 (Z.of_nat (List.length cameras))); [| lia].
    rewrite (findIndexFrom_nth 0 a cameras k Hnd Hk).
    assert (Hk' : (k < List.length cameras)%nat).
    { apply nth_error_Some. rewrite Hk. discriminate. }
    rewrite Z.rem_mod_nonneg by lia.
    f_equal. rewrite Z.add_0_l.
    change 1 with (Z.of_nat 1). rewrite <- Nat2Z.inj_add.
    rewrite <- Nat2Z.inj_mod. apply Nat2Z.id.
Qed.

Lemma switchCamera_cycles_witness :
  switchCamera ["front"%string; "back"%string; "wide"%string]
               (Some "wide"%string)
  = nth_error ["front"%string; "back"%string; "wide"%string]
              ((2 + 1) mod 3).
Proof.
  apply (proj2 (proj2 (switchCamera_cycles
                         ["front"%string; "back"%string; "wide"%string]
                         (Some "wide"%string)))
           ltac:(simpl; lia)
           ltac:(repeat constructor; simpl; intuition discriminate)
           2%nat "wide"%string eq_refl eq_refl).
Defined.

(** The hex reader on a few inputs: both cases of letters, with and
    without the leading [#], and the shorthand form, which is not read. *)
Example parseHexColor_samples :
  parseHexColor "#a3e635" = Some (163, 230, 53)
  /\ parseHexColor "A3E635" = Some (163, 230, 53)
  /\ parseHexColor "#fff" = None
  /\ parseHexColor "#gggggg" = None.
Proof. repeat split; reflexivity. Qed.
